(** * jiddra: a reader for block-structured buffer files

    Shallow embedding of [jiddra.py] (class [LocalBufferFile]) and the
    properties of its header, parameter-table and block decoding.

    Modelling conventions.
    - The file named by [db_file] is modelled by its content, a list of
      bytes; the file is assumed to exist and not to change between the
      calls (every method re-opens it).
    - A binary file object ([open(path, 'rb')]) is a position in that
      content.  [f.seek] and [f.read] are modelled after CPython's
      buffered reader: a negative seek target raises [OSError], a read
      length below -1 raises [ValueError], a read length of -1 reads up
      to the end of the file, and a read past the end returns fewer
      bytes (possibly none).
    - Limits of the platform are not modelled: a read never runs out of
      memory, and a seek to a non-negative offset succeeds (the real one
      raises above the largest offset of the file system).
    - Python integers are unbounded: [Z].
    - Exceptions are values of [exn]; a computation returns [Ok v] or
      [Raise e].
    - [print] calls of [info] are not modelled, except for the number
      printed last, which is the value [info] returns here; the lines
      printed are given apart, by [info_report] and [info_stdout]. *)

From Stdlib Require Import ZArith List Lia Bool.
From Stdlib Require Strings.String.
From Stdlib Require DecimalString HexadecimalString.
From Stdlib Require Import Strings.Byte.
Import ListNotations String.StringSyntax.
Open Scope string_scope.
Open Scope Z_scope.

Abbreviation string := String.string.

(** ** Bytes and Python values *)

Definition bytes := list byte.

(** A Python [str]: a sequence of Unicode code points. *)
Definition str := list Z.

Definition byte_to_Z (b : byte) : Z := Z.of_N (Byte.to_N b).

Definition byte_of_Z (z : Z) : byte :=
  match Byte.of_N (Z.to_N (z mod 256)) with
  | Some b => b
  | None => x00
  end.

Definition len {A} (l : list A) : Z := Z.of_nat (length l).

(** ** Exceptions *)

Inductive exn : Type :=
| ValueError (msg : string)
| UnicodeDecodeError
| struct_error
| OSError.

Inductive result (A : Type) : Type :=
| Ok (a : A)
| Raise (e : exn).
Arguments Ok {A} a.
Arguments Raise {A} e.

(** [except ValueError] catches the class and its subclasses;
    [UnicodeDecodeError] derives from [ValueError], [struct.error] and
    [OSError] do not. *)
Definition isinstance_ValueError (e : exn) : bool :=
  match e with
  | ValueError _ => true
  | UnicodeDecodeError => true
  | struct_error => false
  | OSError => false
  end.

(** The error taxonomy of the specification, as the source raises it:
    every one of them is a plain [ValueError] told apart by its message. *)
Definition TruncatedHeaderError : exn :=
  ValueError "File is too short to contain a valid header.".

Definition TruncatedNameLength : exn :=
  ValueError "Unexpected end of file while reading parameter name length.".
Definition TruncatedName : exn :=
  ValueError "Unexpected end of file while reading parameter name.".
Definition TruncatedValue : exn :=
  ValueError "Unexpected end of file while reading parameter value.".

Definition TruncatedParameterError (e : exn) : Prop :=
  e = TruncatedNameLength \/ e = TruncatedName \/ e = TruncatedValue.

Definition BlockOutOfRangeError : exn :=
  ValueError "Block index out of range.".

Definition in_taxonomy (e : exn) : Prop :=
  e = TruncatedHeaderError \/ TruncatedParameterError e \/
  e = BlockOutOfRangeError.

(** ** File objects

    A computation on an open file takes the content and the current
    position and returns a value with the new position, or raises. *)

Definition io (A : Type) : Type := bytes -> Z -> result (A * Z).

Definition ret {A} (a : A) : io A := fun _ pos => Ok (a, pos).

Definition raise {A} (e : exn) : io A := fun _ _ => Raise e.

Definition bind {A B} (m : io A) (k : A -> io B) : io B :=
  fun file pos =>
    match m file pos with
    | Ok (a, pos') => k a file pos'
    | Raise e => Raise e
    end.

Notation "x <- m ;; k" := (bind m (fun x => k))
  (at level 61, m at next level, right associativity).
Notation "m ;;; k" := (bind m (fun _ => k))
  (at level 61, right associativity).

(** [with open(db_file, 'rb') as f: body] *)
Definition with_open {A} (file : bytes) (body : io A) : result A :=
  match body file 0 with
  | Ok (a, _) => Ok a
  | Raise e => Raise e
  end.

(** [f.seek(offset)].  An offset above what the file system can address,
    at which the real [seek] raises, is outside this model: the theorems
    that state an outcome of the code keep their offsets within the file
    or within one 32-bit block size of its start. *)
Definition f_seek (offset : Z) : io unit :=
  fun _ _ => if offset <? 0 then Raise OSError else Ok (tt, offset).

(** [f.read(n)] *)
Definition f_read (n : Z) : io bytes :=
  fun file pos =>
    if n <? -1 then
      Raise (ValueError "read length must be non-negative or -1")
    else
      let rest := skipn (Z.to_nat pos) file in
      let data := if n =? -1 then rest else firstn (Z.to_nat n) rest in
      Ok (data, pos + len data).

Definition lift {A} (r : result A) : io A :=
  fun _ pos => match r with Ok a => Ok (a, pos) | Raise e => Raise e end.

(** ** [struct]: big-endian, standard sizes *)

Definition int_from_bytes_big (bs : bytes) : Z :=
  fold_left (fun acc b => acc * 256 + byte_to_Z b) bs 0.

Fixpoint int_to_bytes_big (n : nat) (u : Z) : bytes :=
  match n with
  | O => []
  | S n' => int_to_bytes_big n' (u / 256) ++ [byte_of_Z u]
  end.

Definition signed_from_bytes_big (bs : bytes) : Z :=
  let u := int_from_bytes_big bs in
  let w := 8 * len bs in
  if u <? 2 ^ (w - 1) then u else u - 2 ^ w.

(** Format characters used by the source: ['q'] and ['i']. *)
Inductive fmt_char : Type := fmt_q | fmt_i.

Definition fmt_size (c : fmt_char) : nat :=
  match c with
  | fmt_q => 8%nat
  | fmt_i => 4%nat
  end.

Fixpoint calcsize (fmt : list fmt_char) : nat :=
  match fmt with
  | [] => O
  | c :: fmt' => (fmt_size c + calcsize fmt')%nat
  end.

Fixpoint unpack_fields (fmt : list fmt_char) (data : bytes) : list Z :=
  match fmt with
  | [] => []
  | c :: fmt' =>
      signed_from_bytes_big (firstn (fmt_size c) data)
        :: unpack_fields fmt' (skipn (fmt_size c) data)
  end.

(** [struct.unpack('>' + fmt, data)] *)
Definition struct_unpack (fmt : list fmt_char) (data : bytes)
  : result (list Z) :=
  if Nat.eqb (length data) (calcsize fmt) then Ok (unpack_fields fmt data)
  else Raise struct_error.

(** [t[i]] on the tuple [struct.unpack] returns. *)
Definition item (t : list Z) (i : nat) : Z := nth i t 0.

(** ** [bytes.decode('utf-8')], strict

    The well-formed byte sequences are those of the Unicode standard:
    no overlong form, no surrogate, nothing above U+10FFFF. *)

Definition in_range (lo hi : Z) (b : byte) : bool :=
  (lo <=? byte_to_Z b) && (byte_to_Z b <=? hi).

Definition cont (b : byte) : Z := byte_to_Z b - 128.

Fixpoint utf_8_decode (bs : bytes) : option str :=
  match bs with
  | [] => Some []
  | b0 :: r0 =>
      let z0 := byte_to_Z b0 in
      if z0 <? 128 then option_map (cons z0) (utf_8_decode r0)
      else if in_range 194 223 b0 then
        match r0 with
        | b1 :: r1 =>
            if in_range 128 191 b1 then
              option_map (cons ((z0 - 192) * 64 + cont b1)) (utf_8_decode r1)
            else None
        | _ => None
        end
      else if in_range 224 239 b0 then
        match r0 with
        | b1 :: b2 :: r2 =>
            let lo := if z0 =? 224 then 160 else 128 in
            let hi := if z0 =? 237 then 159 else 191 in
            if in_range lo hi b1 && in_range 128 191 b2 then
              option_map
                (cons ((z0 - 224) * 4096 + cont b1 * 64 + cont b2))
                (utf_8_decode r2)
            else None
        | _ => None
        end
      else if in_range 240 244 b0 then
        match r0 with
        | b1 :: b2 :: b3 :: r3 =>
            let lo := if z0 =? 240 then 144 else 128 in
            let hi := if z0 =? 244 then 143 else 191 in
            if in_range lo hi b1 && in_range 128 191 b2
               && in_range 128 191 b3 then
              option_map
                (cons ((z0 - 240) * 262144 + cont b1 * 4096
                       + cont b2 * 64 + cont b3))
                (utf_8_decode r3)
            else None
        | _ => None
        end
      else None
  end.

Definition decode_utf_8 (data : bytes) : result str :=
  match utf_8_decode data with
  | Some s => Ok s
  | None => Raise UnicodeDecodeError
  end.

(** ** [dict]: insertion-ordered, a repeated key keeps its place *)

Definition dict := list (str * Z).

Definition str_eqb (a b : str) : bool :=
  if list_eq_dec Z.eq_dec a b then true else false.

Fixpoint dict_setitem (k : str) (v : Z) (d : dict) : dict :=
  match d with
  | [] => [(k, v)]
  | (k', v') :: d' =>
      if str_eqb k k' then (k', v) :: d'
      else (k', v') :: dict_setitem k v d'
  end.

Fixpoint dict_get (k : str) (d : dict) : option Z :=
  match d with
  | [] => None
  | (k', v') :: d' => if str_eqb k k' then Some v' else dict_get k d'
  end.

Definition dict_keys (d : dict) : list str := map fst d.

(** ** class [LocalBufferFile] *)

Record LocalBufferFile : Type := mkLocalBufferFile {
  db_file : bytes;
  magic_number : Z;
  file_id : Z;
  version : Z;
  block_size : Z;
  first_free_block : Z;
  user_param_count : Z;
  user_params : dict
}.

Definition header_fmt : list fmt_char :=
  [fmt_q; fmt_q; fmt_i; fmt_i; fmt_i; fmt_i].

Definition _read_header (self : LocalBufferFile) : result LocalBufferFile :=
  with_open (db_file self)
    (header <- f_read 32 ;;
     if len header <? 32 then raise TruncatedHeaderError
     else
       header <- lift (struct_unpack header_fmt (firstn 32 header)) ;;
       ret {| db_file := db_file self;
              magic_number := item header 0;
              file_id := item header 1;
              version := item header 2;
              block_size := item header 3;
              first_free_block := item header 4;
              user_param_count := item header 5;
              user_params := user_params self |}).

(** The body of [for _ in range(self.user_param_count)], run [n] times on
    the open file; [params] is [self.user_params]. *)
Fixpoint read_user_params_loop (n : nat) (params : dict) : io dict :=
  match n with
  | O => ret params
  | S n' =>
      name_length_data <- f_read 4 ;;
      if len name_length_data <? 4 then raise TruncatedNameLength
      else
        t <- lift (struct_unpack [fmt_i] name_length_data) ;;
        let name_length := item t 0 in
        name_data <- f_read name_length ;;
        if len name_data <? name_length then raise TruncatedName
        else
          name <- lift (decode_utf_8 name_data) ;;
          value_data <- f_read 4 ;;
          if len value_data <? 4 then raise TruncatedValue
          else
            t <- lift (struct_unpack [fmt_i] value_data) ;;
            let value := item t 0 in
            read_user_params_loop n' (dict_setitem name value params)
  end.

(** The file computation of [_read_user_params]; [range(c)] is empty for
    [c <= 0]. *)
Definition read_user_params_io (self : LocalBufferFile) : io dict :=
  f_seek 32 ;;;
  read_user_params_loop (Z.to_nat (user_param_count self)) (user_params self).

Definition set_user_params (self : LocalBufferFile) (params : dict)
  : LocalBufferFile :=
  {| db_file := db_file self;
     magic_number := magic_number self;
     file_id := file_id self;
     version := version self;
     block_size := block_size self;
     first_free_block := first_free_block self;
     user_param_count := user_param_count self;
     user_params := params |}.

Definition _read_user_params (self : LocalBufferFile)
  : result LocalBufferFile :=
  match with_open (db_file self) (read_user_params_io self) with
  | Ok params => Ok (set_user_params self params)
  | Raise e => Raise e
  end.

(** The attributes as [__init__] sets them before it reads the file. *)
Definition blank (db_file : bytes) : LocalBufferFile :=
  {| db_file := db_file; magic_number := 0; file_id := 0;
     version := 0; block_size := 0; first_free_block := 0;
     user_param_count := 0; user_params := [] |}.

Definition __init__ (db_file : bytes) : result LocalBufferFile :=
  let self := blank db_file in
  match _read_header self with
  | Ok self => _read_user_params self
  | Raise e => Raise e
  end.

Definition get_buffer_block (self : LocalBufferFile) (block_index : Z)
  : result (bytes * bytes * Z) :=
  with_open (db_file self)
    (let offset := (block_index + 1) * block_size self in
     f_seek offset ;;;
     flags <- f_read 1 ;;
     match flags with
     | [] => raise BlockOutOfRangeError
     | _ :: _ =>
         block_id_data <- f_read 4 ;;
         t <- lift (struct_unpack [fmt_i] block_id_data) ;;
         let block_id := item t 0 in
         block_data <- f_read (block_size self - 5) ;;
         if len block_data <? block_size self - 5
         then raise BlockOutOfRangeError
         else ret (flags, block_data, block_id)
     end).

(** What a call of [info] can do: print a last number and return, end
    with an uncaught exception, or still be in its [while True] loop after
    [fuel] iterations.  [calls] lists the indices passed to
    [get_buffer_block], in call order. *)
Inductive outcome : Type :=
| Returns (printed : Z) (calls : list Z)
| Raises (e : exn) (calls : list Z)
| Running (calls : list Z).

(** The [while True] loop of [info]; [block_id] is the local variable of
    that name, which the loop both increments and assigns from the read. *)
Fixpoint info_loop (fuel : nat) (self : LocalBufferFile) (block_id : Z)
  (calls : list Z) : outcome :=
  match fuel with
  | O => Running calls
  | S fuel' =>
      let block_id := block_id + 1 in
      match get_buffer_block self block_id with
      | Ok (_, _, block_id') =>
          info_loop fuel' self block_id' (calls ++ [block_id])
      | Raise e =>
          if isinstance_ValueError e
          then Returns block_id (calls ++ [block_id])
          else Raises e (calls ++ [block_id])
      end
  end.

Definition info (fuel : nat) (self : LocalBufferFile) : outcome :=
  match get_buffer_block self 0 with
  | Ok (_, _, block_id) => info_loop fuel self block_id [0]
  | Raise e => Raises e [0]
  end.

(** ** The scenario file

    A 32-byte header (magic 0x1122334455667788, file id 99, version 1,
    block size 64, first free block -1, one parameter), the parameter
    ["x"] = 7, zero bytes up to the end of the header block, and one
    block with flags 0, id 5 and 59 zero payload bytes. *)

Definition zeros (n : nat) : bytes := repeat x00 n.

Definition scenario_header : bytes :=
  [x11; x22; x33; x44; x55; x66; x77; x88;
   x00; x00; x00; x00; x00; x00; x00; x63;
   x00; x00; x00; x01;
   x00; x00; x00; x40;
   xff; xff; xff; xff;
   x00; x00; x00; x01].

Definition scenario_params : bytes :=
  [x00; x00; x00; x01; x78; x00; x00; x00; x07].

Definition scenario_block : bytes :=
  [x00; x00; x00; x00; x05] ++ zeros 59.

Definition scenario_file : bytes :=
  scenario_header ++ scenario_params ++ zeros 23 ++ scenario_block.

Definition scenario : LocalBufferFile :=
  {| db_file := scenario_file;
     magic_number := 1234605616436508552;
     file_id := 99;
     version := 1;
     block_size := 64;
     first_free_block := -1;
     user_param_count := 1;
     user_params := [([120], 7)] |}.

(** A block file whose only block is empty and ends the free chain:
    header (block size 64, first free block 0, no parameter), then a block
    with flags 1 and next-empty index -1. *)
Definition free_header_block : bytes :=
  [x11; x22; x33; x44; x55; x66; x77; x88;
   x00; x00; x00; x00; x00; x00; x00; x63;
   x00; x00; x00; x01;
   x00; x00; x00; x40;
   x00; x00; x00; x00;
   x00; x00; x00; x00] ++ zeros 32.

Definition free_chain_file : bytes :=
  free_header_block ++ [x01; xff; xff; xff; xff] ++ zeros 59.

(** A block file cut inside the prefix of its second block: header block
    (block size 64, no parameter), a full block with id 0, then a flag
    byte and two of the four id bytes. *)
Definition plain_header_block : bytes :=
  [x11; x22; x33; x44; x55; x66; x77; x88;
   x00; x00; x00; x00; x00; x00; x00; x63;
   x00; x00; x00; x01;
   x00; x00; x00; x40;
   xff; xff; xff; xff;
   x00; x00; x00; x00] ++ zeros 32.

Definition cut_prefix_file : bytes :=
  plain_header_block ++ zeros 64 ++ [x00; x00; x00].

(** Parameter tables with a negative name length: -1 followed by the byte
    0xFF, and -2 followed by a well-formed name and value. *)
Definition one_param_header : bytes := scenario_header.

Definition minus_one_length_file : bytes :=
  one_param_header ++ [xff; xff; xff; xff] ++ [xff].

Definition minus_two_length_file : bytes :=
  one_param_header ++ [xff; xff; xff; xfe]
    ++ [x78; x00; x00; x00; x07] ++ zeros 64.

(** A parameter whose three fields are present and whose one-byte name
    0xFF is not UTF-8. *)
Definition bad_name_file : bytes :=
  one_param_header ++ [x00; x00; x00; x01; xff; x00; x00; x00; x07]
    ++ zeros 23 ++ scenario_block.

(** ** Parameter entries as they lie in the file *)

Record entry : Type := mkEntry {
  e_length : bytes;
  e_name : bytes;
  e_value : bytes
}.

Definition entry_bytes (e : entry) : bytes :=
  e_length e ++ e_name e ++ e_value e.

Definition table_bytes (es : list entry) : bytes :=
  concat (map entry_bytes es).

Definition is_utf_8 (bs : bytes) : bool :=
  match utf_8_decode bs with Some _ => true | None => false end.

(** A well-formed entry: a 4-byte length equal to the number of name
    bytes, a UTF-8 name, a 4-byte value. *)
Definition well_formed (e : entry) : bool :=
  Nat.eqb (length (e_length e)) 4
  && (signed_from_bytes_big (e_length e) =? len (e_name e))
  && is_utf_8 (e_name e)
  && Nat.eqb (length (e_value e)) 4.

Definition entry_name (e : entry) : str :=
  match utf_8_decode (e_name e) with Some s => s | None => [] end.

Definition entry_value (e : entry) : Z := signed_from_bytes_big (e_value e).

(** The mapping after the entries were inserted one by one into [d]. *)
Definition insert_all (es : list entry) (d : dict) : dict :=
  fold_left (fun d e => dict_setitem (entry_name e) (entry_value e) d) es d.

(** The value of the last entry named [k], if any. *)
Definition last_value (k : str) (es : list entry) : option Z :=
  fold_left
    (fun acc e => if str_eqb k (entry_name e) then Some (entry_value e)
                  else acc)
    es None.

(** The names in order of first occurrence. *)
Definition first_seen (es : list entry) : list str :=
  fold_left
    (fun ks e => if existsb (str_eqb (entry_name e)) ks then ks
                 else ks ++ [entry_name e])
    es [].

(** ** Re-encoding, for the round trip

    [struct.pack('>' + fmt, *values)]: the inverse direction, which the
    source does not contain; written from the format's definition. *)

Definition pack_field (c : fmt_char) (v : Z) : option bytes :=
  let w := 8 * Z.of_nat (fmt_size c) in
  if (- 2 ^ (w - 1) <=? v) && (v <? 2 ^ (w - 1))
  then Some (int_to_bytes_big (fmt_size c) (v mod 2 ^ w))
  else None.

Fixpoint struct_pack (fmt : list fmt_char) (values : list Z)
  : result bytes :=
  match fmt, values with
  | [], [] => Ok []
  | c :: fmt', v :: values' =>
      match pack_field c v, struct_pack fmt' values' with
      | Some b, Ok bs => Ok (b ++ bs)
      | _, _ => Raise struct_error
      end
  | _, _ => Raise struct_error
  end.

Definition header_fields (self : LocalBufferFile) : list Z :=
  [magic_number self; file_id self; version self; block_size self;
   first_free_block self; user_param_count self].

(** The [block_size] bytes of the file at the offset of block [i]. *)
Definition block_bytes (self : LocalBufferFile) (i : Z) : bytes :=
  firstn (Z.to_nat (block_size self))
    (skipn (Z.to_nat ((i + 1) * block_size self)) (db_file self)).

(** The object [__init__] holds between [_read_header] and
    [_read_user_params], for a file that starts with the 32 bytes
    [header]. *)
Definition after_header (header file : bytes) : LocalBufferFile :=
  {| db_file := file;
     magic_number := item (unpack_fields header_fmt header) 0;
     file_id := item (unpack_fields header_fmt header) 1;
     version := item (unpack_fields header_fmt header) 2;
     block_size := item (unpack_fields header_fmt header) 3;
     first_free_block := item (unpack_fields header_fmt header) 4;
     user_param_count := item (unpack_fields header_fmt header) 5;
     user_params := [] |}.

(** The parameter count a header records. *)
Definition header_param_count (header : bytes) : Z :=
  item (unpack_fields header_fmt header) 5.

(** The entry of the scenario file. *)
Definition scenario_entry : entry :=
  {| e_length := [x00; x00; x00; x01];
     e_name := [x78];
     e_value := [x00; x00; x00; x07] |}.

(** The entry of [bad_name_file]. *)
Definition bad_name_entry : entry :=
  {| e_length := [x00; x00; x00; x01];
     e_name := [xff];
     e_value := [x00; x00; x00; x07] |}.

(** The objects [__init__] builds from the files above. *)
Definition free_chain : LocalBufferFile :=
  {| db_file := free_chain_file;
     magic_number := 1234605616436508552;
     file_id := 99;
     version := 1;
     block_size := 64;
     first_free_block := 0;
     user_param_count := 0;
     user_params := [] |}.

Definition cut_prefix : LocalBufferFile :=
  {| db_file := cut_prefix_file;
     magic_number := 1234605616436508552;
     file_id := 99;
     version := 1;
     block_size := 64;
     first_free_block := -1;
     user_param_count := 0;
     user_params := [] |}.

(** Three full blocks whose stored ids are 1, 0 and 7. *)
Definition block_with_id (b : byte) : bytes :=
  [x00; x00; x00; x00; b] ++ zeros 59.

Definition three_blocks_file : bytes :=
  plain_header_block
    ++ block_with_id x01 ++ block_with_id x00 ++ block_with_id x07.

Definition three_blocks : LocalBufferFile :=
  {| db_file := three_blocks_file;
     magic_number := 1234605616436508552;
     file_id := 99;
     version := 1;
     block_size := 64;
     first_free_block := -1;
     user_param_count := 0;
     user_params := [] |}.

(** The scenario file without the padding of the header block: the block
    starts right after the parameter table, at offset 41. *)
Definition packed_scenario_file : bytes :=
  scenario_header ++ scenario_params ++ scenario_block.

(** A table cut inside a name: the length field says 10, 3 bytes are
    left. *)
Definition ten_length : bytes := [x00; x00; x00; x0a].
Definition three_left : bytes := [x61; x62; x63].

(** What [get_buffer_block] does at index [i] when the block size is at
    least 5, read off the length of the file: the decision table the
    proofs below compare the method with. *)
Definition block_outcome (self : LocalBufferFile) (i : Z)
  : result (bytes * bytes * Z) :=
  let offset := (i + 1) * block_size self in
  if offset <? 0 then Raise OSError
  else if len (db_file self) <=? offset then Raise BlockOutOfRangeError
  else if len (db_file self) <? offset + 5 then Raise struct_error
  else if len (db_file self) <? offset + block_size self
       then Raise BlockOutOfRangeError
  else
    let b := block_bytes self i in
    Ok (firstn 1 b, skipn 5 b, signed_from_bytes_big (firstn 4 (skipn 1 b))).

(** Headers that record -1 and 2 parameters. *)
Definition negative_count_header : bytes :=
  firstn 28 scenario_header ++ [xff; xff; xff; xff].

Definition two_param_header : bytes :=
  firstn 28 scenario_header ++ [x00; x00; x00; x02].

(** The id stored in the prefix of block [i]. *)
Definition stored_id (self : LocalBufferFile) (i : Z) : Z :=
  signed_from_bytes_big (firstn 4 (skipn 1 (block_bytes self i))).




(** A file that ends with its header block. *)
Definition header_only : LocalBufferFile :=
  {| db_file := plain_header_block;
     magic_number := 1234605616436508552;
     file_id := 99;
     version := 1;
     block_size := 64;
     first_free_block := -1;
     user_param_count := 0;
     user_params := [] |}.

(** Two entries of the same name, ["x"] = 7 and then ["x"] = 9. *)
Definition second_entry : entry :=
  {| e_length := [x00; x00; x00; x01];
     e_name := [x78];
     e_value := [x00; x00; x00; x09] |}.

(** Two full blocks that both store the id 1. *)
Definition growing_ids_file : bytes :=
  plain_header_block ++ block_with_id x01 ++ block_with_id x01.

Definition growing_ids : LocalBufferFile :=
  {| db_file := growing_ids_file;
     magic_number := 1234605616436508552;
     file_id := 99;
     version := 1;
     block_size := 64;
     first_free_block := -1;
     user_param_count := 0;
     user_params := [] |}.

(** ** What [info] prints, and the script

    Standard output is the list of the lines printed, each a [str]. *)

(** A string literal of the source as a [str]. *)
Definition str_of_string (s : string) : str :=
  map (fun a => Z.of_N (Ascii.N_of_ascii a)) (String.list_ascii_of_string s).

(** [f"{n}"] for an integer: decimal digits, [-] before a negative
    number. *)
Definition format_d (n : Z) : str :=
  str_of_string (DecimalString.NilZero.string_of_int (Z.to_int n)).

(** [f"{n:x}"]: lowercase hexadecimal digits, [-] before a negative
    number. *)
Definition format_x (n : Z) : str :=
  str_of_string (HexadecimalString.NilZero.string_of_int (Z.to_hex_int n)).

(** The lines [info] prints before it reads the first block. *)
Definition info_report (self : LocalBufferFile) : list str :=
  [ str_of_string "Magic Number: " ++ format_x (magic_number self);
    str_of_string "File ID: " ++ format_d (file_id self);
    str_of_string "Version: " ++ format_d (version self);
    str_of_string "Block Size: " ++ format_d (block_size self);
    str_of_string "First Free Block: " ++ format_d (first_free_block self);
    str_of_string "User Parameter Count: "
      ++ format_d (user_param_count self) ]
  ++ (if user_param_count self >? 0 then
        str_of_string "User Parameters:"
          :: map (fun item =>
                    str_of_string "  " ++ fst item ++ str_of_string ": "
                      ++ format_d (snd item))
               (user_params self)
      else []).

(** All the lines of a call of [info]: the last one is printed when the
    loop is left through [break]. *)
Definition info_stdout (fuel : nat) (self : LocalBufferFile) : list str :=
  info_report self ++
  match info fuel self with
  | Returns printed _ =>
      [str_of_string "Number of blocks read: " ++ format_d printed]
  | Raises _ _ => []
  | Running _ => []
  end.

(** How the script ends: [sys.exit(status)], an exception nobody catches,
    the end of the script, or still in the loop of [info]. *)
Inductive script_end : Type :=
| Exit (status : Z)
| Uncaught (e : exn)
| Finished
| Looping.

Definition usage : str := str_of_string "Usage: python jiddra.py <db_file>".

(** The script under [if __name__ == "__main__"].  [argv] is [sys.argv];
    [fs] gives the content of the file at a path, or [None] when [open]
    fails on it, which raises a subclass of [OSError]. *)
Definition main (fs : string -> option bytes) (fuel : nat)
  (argv : list string) : list str * script_end :=
  let db_file := match argv with
                 | _ :: arg :: _ => Some arg
                 | _ => None
                 end in
  match db_file with
  | None => ([usage], Exit 1)
  | Some path =>
      if String.eqb path "" then ([usage], Exit 1)
      else
        match fs path with
        | None => ([], Uncaught OSError)
        | Some content =>
            match __init__ content with
            | Raise e => ([], Uncaught e)
            | Ok lbf =>
                (info_stdout fuel lbf,
                 match info fuel lbf with
                 | Returns _ _ => Finished
                 | Raises e _ => Uncaught e
                 | Running _ => Looping
                 end)
            end
        end
  end.

(** A file system with the scenario file at ["db"] and nothing else. *)
Definition scenario_fs (path : string) : option bytes :=
  if String.eqb path "db" then Some scenario_file else None.

(** ** [str.encode('utf-8')], for the round trip of names

    The inverse direction of [utf_8_decode], which the source does not
    contain; written from the definition of UTF-8. *)

Definition utf_8_encode_char (c : Z) : bytes :=
  if c <? 128 then [byte_of_Z c]
  else if c <? 2048 then
    [byte_of_Z (192 + c / 64); byte_of_Z (128 + c mod 64)]
  else if c <? 65536 then
    [byte_of_Z (224 + c / 4096); byte_of_Z (128 + (c / 64) mod 64);
     byte_of_Z (128 + c mod 64)]
  else
    [byte_of_Z (240 + c / 262144); byte_of_Z (128 + (c / 4096) mod 64);
     byte_of_Z (128 + (c / 64) mod 64); byte_of_Z (128 + c mod 64)].

Definition utf_8_encode (s : str) : bytes := flat_map utf_8_encode_char s.

(** A Unicode scalar value: a code point that is no surrogate. *)
Definition scalar_value (c : Z) : Prop :=
  0 <= c <= 1114111 /\ ~ (55296 <= c <= 57343).

(** An entry with the two-byte name U+00E9 and the value 3. *)
Definition accent_entry : entry :=
  {| e_length := [x00; x00; x00; x02];
     e_name := [xc3; xa9];
     e_value := [x00; x00; x00; x03] |}.

(** * Properties *)

(** ** Bytes and big-endian integers *)

Section Integers.

Lemma byte_to_Z_range (b : byte) : 0 <= byte_to_Z b < 256.
Proof.
  unfold byte_to_Z. pose proof (Byte.to_N_bounded b). lia.
Qed.

Lemma byte_of_to_Z (b : byte) : byte_of_Z (byte_to_Z b) = b.
Proof.
  unfold byte_of_Z. pose proof (byte_to_Z_range b) as R.
  rewrite Z.mod_small by exact R.
  unfold byte_to_Z. rewrite N2Z.id, Byte.of_to_N. reflexivity.
Qed.

Lemma byte_of_Z_mod (z : Z) : byte_of_Z (z mod 256) = byte_of_Z z.
Proof.
  unfold byte_of_Z. rewrite Z.mod_mod by lia. reflexivity.
Qed.

Lemma len_app {A} (l1 l2 : list A) : len (l1 ++ l2) = len l1 + len l2.
Proof. unfold len. rewrite length_app. lia. Qed.

Lemma len_nonneg {A} (l : list A) : 0 <= len l.
Proof. unfold len. lia. Qed.

Lemma int_from_bytes_big_snoc (bs : bytes) (b : byte) :
  int_from_bytes_big (bs ++ [b]) = int_from_bytes_big bs * 256 + byte_to_Z b.
Proof.
  unfold int_from_bytes_big. rewrite fold_left_app. reflexivity.
Qed.

Lemma int_from_bytes_big_range (bs : bytes) :
  0 <= int_from_bytes_big bs < 256 ^ len bs.
Proof.
  induction bs as [|b bs IH] using rev_ind.
  - cbn. lia.
  - rewrite int_from_bytes_big_snoc, len_app.
    change (len [b]) with 1.
    rewrite Z.pow_add_r by (pose proof (len_nonneg bs); lia).
    pose proof (byte_to_Z_range b). lia.
Qed.

Lemma int_to_from_bytes_big (bs : bytes) :
  int_to_bytes_big (length bs) (int_from_bytes_big bs) = bs.
Proof.
  induction bs as [|b bs IH] using rev_ind.
  - reflexivity.
  - rewrite length_app, Nat.add_comm. cbn [length Nat.add int_to_bytes_big].
    rewrite int_from_bytes_big_snoc.
    pose proof (byte_to_Z_range b) as R.
    replace ((int_from_bytes_big bs * 256 + byte_to_Z b) / 256)
      with (int_from_bytes_big bs)
      by (rewrite Z.div_add_l by lia; rewrite Z.div_small by lia; lia).
    rewrite IH. f_equal. f_equal.
    rewrite <- byte_of_Z_mod.
    rewrite Z.add_comm, Z.mod_add by lia.
    rewrite Z.mod_small by lia. apply byte_of_to_Z.
Qed.

Lemma pow_256 (n : Z) : 0 <= n -> 256 ^ n = 2 ^ (8 * n).
Proof.
  intros Hn. change 256 with (2 ^ 8). rewrite <- Z.pow_mul_r by lia.
  reflexivity.
Qed.

Lemma signed_from_bytes_big_range (bs : bytes) :
  bs <> [] ->
  - 2 ^ (8 * len bs - 1) <= signed_from_bytes_big bs < 2 ^ (8 * len bs - 1).
Proof.
  intros Hne. unfold signed_from_bytes_big.
  pose proof (int_from_bytes_big_range bs) as R.
  assert (0 < len bs) as Hl
    by (unfold len; destruct bs; [congruence | cbn; lia]).
  rewrite pow_256 in R by lia.
  assert (2 ^ (8 * len bs) = 2 * 2 ^ (8 * len bs - 1)) as E.
  { rewrite <- Z.pow_succ_r by lia. f_equal. lia. }
  destruct (Z.ltb_spec (int_from_bytes_big bs) (2 ^ (8 * len bs - 1))); lia.
Qed.

Lemma signed_from_bytes_big_mod (bs : bytes) :
  signed_from_bytes_big bs mod 2 ^ (8 * len bs) = int_from_bytes_big bs.
Proof.
  unfold signed_from_bytes_big.
  pose proof (int_from_bytes_big_range bs) as R.
  pose proof (len_nonneg bs) as Hl.
  rewrite pow_256 in R by lia.
  destruct (Z.ltb_spec (int_from_bytes_big bs) (2 ^ (8 * len bs - 1))).
  - apply Z.mod_small. lia.
  - replace (int_from_bytes_big bs - 2 ^ (8 * len bs))
      with (int_from_bytes_big bs + (-1) * 2 ^ (8 * len bs)) by lia.
    rewrite Z.mod_add by lia. apply Z.mod_small. lia.
Qed.

(** Packing what was unpacked from a field gives the field's bytes. *)
Lemma pack_unpack_field (c : fmt_char) (bs : bytes) :
  length bs = fmt_size c ->
  pack_field c (signed_from_bytes_big bs) = Some bs.
Proof.
  intros Hl. unfold pack_field.
  assert (len bs = Z.of_nat (fmt_size c)) as Hz by (unfold len; lia).
  assert (bs <> []) as Hne by (destruct bs, c; cbn in Hl; congruence).
  pose proof (signed_from_bytes_big_range bs Hne) as R.
  rewrite <- Hz.
  destruct (Z.leb_spec (- 2 ^ (8 * len bs - 1)) (signed_from_bytes_big bs));
    [|lia].
  destruct (Z.ltb_spec (signed_from_bytes_big bs) (2 ^ (8 * len bs - 1)));
    [|lia].
  cbn [andb]. rewrite signed_from_bytes_big_mod, <- Hl.
  rewrite int_to_from_bytes_big. reflexivity.
Qed.

Lemma struct_pack_unpack_fields (fmt : list fmt_char) :
  forall data : bytes,
    length data = calcsize fmt ->
    struct_pack fmt (unpack_fields fmt data) = Ok data.
Proof.
  induction fmt as [|c fmt IH]; intros data Hl.
  - destruct data; [reflexivity | discriminate].
  - cbn [calcsize] in Hl. cbn [unpack_fields struct_pack].
    rewrite pack_unpack_field by (rewrite length_firstn; lia).
    rewrite IH by (rewrite length_skipn; lia).
    rewrite firstn_skipn. reflexivity.
Qed.

Lemma length_unpack_fields (fmt : list fmt_char) (data : bytes) :
  length (unpack_fields fmt data) = length fmt.
Proof.
  revert data. induction fmt as [|c fmt IH]; intros data; cbn; auto.
Qed.

End Integers.

(** ** Reading from a file object *)

Section Reading.

Lemma skipn_len_app {A} (pre l : list A) :
  skipn (Z.to_nat (len pre)) (pre ++ l) = l.
Proof.
  unfold len. rewrite Nat2Z.id. induction pre; cbn; auto.
Qed.

Lemma firstn_len_app {A} (data post : list A) :
  firstn (Z.to_nat (len data)) (data ++ post) = data.
Proof.
  unfold len. rewrite Nat2Z.id.
  rewrite firstn_app, firstn_all, Nat.sub_diag. cbn. apply app_nil_r.
Qed.

(** Reading exactly the bytes [data] that lie at the position. *)
Lemma f_read_at (pre data post : bytes) (n pos : Z) :
  n = len data -> pos = len pre ->
  f_read n (pre ++ data ++ post) pos = Ok (data, pos + n).
Proof.
  intros -> ->. unfold f_read. pose proof (len_nonneg data).
  destruct (Z.ltb_spec (len data) (-1)); [lia|].
  destruct (Z.eqb_spec (len data) (-1)); [lia|].
  rewrite skipn_len_app, firstn_len_app. reflexivity.
Qed.

(** Reading [n >= 0] bytes where only [rest], fewer than [n], remain. *)
Lemma f_read_short (pre rest : bytes) (n pos : Z) :
  len rest <= n -> pos = len pre ->
  f_read n (pre ++ rest) pos = Ok (rest, pos + len rest).
Proof.
  intros Hn ->. unfold f_read. pose proof (len_nonneg rest).
  destruct (Z.ltb_spec n (-1)); [lia|].
  destruct (Z.eqb_spec n (-1)); [lia|].
  rewrite skipn_len_app, firstn_all2 by (unfold len in Hn; lia).
  reflexivity.
Qed.

(** Reading at or past the end of the file returns no byte. *)
Lemma f_read_eof (file : bytes) (n pos : Z) :
  -1 <= n -> len file <= pos ->
  f_read n file pos = Ok ([], pos).
Proof.
  intros Hn Hp. unfold f_read.
  destruct (Z.ltb_spec n (-1)); [lia|].
  rewrite skipn_all2 by (unfold len in Hp; lia).
  rewrite firstn_nil. destruct (n =? -1); cbn; f_equal; f_equal; lia.
Qed.

Lemma bind_Ok {A B} (m : io A) (k : A -> io B) file pos a pos' :
  m file pos = Ok (a, pos') -> bind m k file pos = k a file pos'.
Proof. intros H. unfold bind. rewrite H. reflexivity. Qed.

Lemma bind_Raise {A B} (m : io A) (k : A -> io B) file pos e :
  m file pos = Raise e -> bind m k file pos = Raise e.
Proof. intros H. unfold bind. rewrite H. reflexivity. Qed.

Lemma struct_unpack_i (bs : bytes) :
  length bs = 4%nat ->
  struct_unpack [fmt_i] bs = Ok [signed_from_bytes_big bs].
Proof.
  intros H. unfold struct_unpack, unpack_fields, calcsize, fmt_size.
  rewrite H, firstn_all2 by lia. reflexivity.
Qed.

Lemma struct_unpack_i_short (bs : bytes) :
  length bs <> 4%nat -> struct_unpack [fmt_i] bs = Raise struct_error.
Proof.
  intros H. unfold struct_unpack. cbn.
  destruct (Nat.eqb_spec (length bs) 4); [contradiction | reflexivity].
Qed.

End Reading.

(** ** The header *)

Section Header.

Lemma _read_header_Ok (header rest : bytes) (self : LocalBufferFile) :
  length header = 32%nat ->
  db_file self = header ++ rest ->
  _read_header self =
    Ok {| db_file := db_file self;
          magic_number := item (unpack_fields header_fmt header) 0;
          file_id := item (unpack_fields header_fmt header) 1;
          version := item (unpack_fields header_fmt header) 2;
          block_size := item (unpack_fields header_fmt header) 3;
          first_free_block := item (unpack_fields header_fmt header) 4;
          user_param_count := item (unpack_fields header_fmt header) 5;
          user_params := user_params self |}.
Proof.
  intros Hl Hf. unfold _read_header, with_open.
  assert (len header = 32) as Hz by (unfold len; lia).
  rewrite (bind_Ok _ _ _ _ header 32).
  2:{ rewrite Hf. apply (f_read_at [] header rest 32 0); auto. }
  rewrite Hz. cbn [Z.ltb Z.compare Pos.compare Pos.compare_cont].
  rewrite firstn_all2 by lia.
  unfold bind, lift, ret, struct_unpack. rewrite Hl. reflexivity.
Qed.

(** C7. A 32-byte header decoded by [_read_header] as two big-endian
    signed 8-byte integers and four big-endian signed 4-byte integers,
    and re-encoded field by field in the same order and byte order, gives
    back the 32 bytes. *)
Theorem header_round_trip (header rest : bytes) (self : LocalBufferFile) :
  length header = 32%nat ->
  db_file self = header ++ rest ->
  exists self',
    _read_header self = Ok self' /\
    struct_pack header_fmt (header_fields self') = Ok header.
Proof.
  intros Hl Hf. eexists. split.
  - apply (_read_header_Ok header rest); assumption.
  - unfold header_fields. cbn [magic_number file_id version block_size
      first_free_block user_param_count].
    rewrite <- (struct_pack_unpack_fields header_fmt header) by exact Hl.
    reflexivity.
Qed.

Lemma header_round_trip_witness :
  exists self',
    _read_header scenario = Ok self' /\
    struct_pack header_fmt (header_fields self') = Ok scenario_header.
Proof.
  apply (header_round_trip scenario_header
           (scenario_params ++ zeros 23 ++ scenario_block) scenario);
    reflexivity.
Defined.

(** C9. On a file shorter than 32 bytes [_read_header] raises the
    too-short-header error and returns no object, and so does the
    construction of a [LocalBufferFile]: no header field is available. *)
Theorem short_file_no_header (self : LocalBufferFile) :
  (length (db_file self) < 32)%nat ->
  _read_header self = Raise TruncatedHeaderError /\
  __init__ (db_file self) = Raise TruncatedHeaderError.
Proof.
  intros Hl.
  assert (forall s, db_file s = db_file self ->
                    _read_header s = Raise TruncatedHeaderError) as H.
  { intros s Hs. unfold _read_header, with_open. rewrite Hs.
    rewrite (bind_Ok _ _ _ _ (db_file self) (len (db_file self))).
    2:{ apply (f_read_short [] (db_file self) 32 0);
          [unfold len; lia | reflexivity]. }
    destruct (Z.ltb_spec (len (db_file self)) 32);
      [reflexivity | unfold len in *; lia]. }
  split.
  - apply H. reflexivity.
  - unfold __init__. rewrite H by reflexivity. reflexivity.
Qed.

Lemma short_file_no_header_witness :
  _read_header (mkLocalBufferFile [x11; x22; x33] 0 0 0 0 0 0 []) =
    Raise TruncatedHeaderError /\
  __init__ [x11; x22; x33] = Raise TruncatedHeaderError.
Proof.
  apply (short_file_no_header (mkLocalBufferFile [x11; x22; x33] 0 0 0 0 0 0 [])).
  cbn. lia.
Defined.

End Header.

(** ** Blocks *)

Section Blocks.

Variable self : LocalBufferFile.

Let file := db_file self.
Let size := block_size self.

Lemma f_read_in (pre data post : bytes) (n pos : Z) :
  file = pre ++ data ++ post -> n = len data -> pos = len pre ->
  f_read n file pos = Ok (data, pos + n).
Proof. intros ->. apply f_read_at. Qed.

(** A whole block lies at the offset of index [i]. *)
Lemma get_buffer_block_Ok (i : Z) (pre post : bytes) (flag : byte)
  (id_bytes payload : bytes) :
  file = pre ++ [flag] ++ id_bytes ++ payload ++ post ->
  len pre = (i + 1) * size ->
  length id_bytes = 4%nat ->
  len payload = size - 5 ->
  get_buffer_block self i =
    Ok ([flag], payload, signed_from_bytes_big id_bytes).
Proof.
  intros Hf Hpre Hid Hpay. unfold get_buffer_block, with_open.
  fold file size. pose proof (len_nonneg pre) as Hp.
  assert (len id_bytes = 4) as Hid' by (unfold len; lia).
  rewrite (bind_Ok _ _ _ _ tt ((i + 1) * size)); cbv beta iota.
  2:{ unfold f_seek. destruct (Z.ltb_spec ((i + 1) * size) 0);
        [lia | reflexivity]. }
  rewrite (bind_Ok _ _ _ _ [flag] ((i + 1) * size + 1)); cbv beta iota.
  2:{ apply (f_read_in pre [flag] (id_bytes ++ payload ++ post));
        [exact Hf | reflexivity | lia]. }
  rewrite (bind_Ok _ _ _ _ id_bytes ((i + 1) * size + 1 + 4)); cbv beta iota.
  2:{ apply (f_read_in (pre ++ [flag]) id_bytes (payload ++ post)).
      - rewrite Hf, <- app_assoc. reflexivity.
      - lia.
      - rewrite len_app. change (len [flag]) with 1. lia. }
  rewrite (bind_Ok _ _ _ _ [signed_from_bytes_big id_bytes]
             ((i + 1) * size + 1 + 4)); cbv beta iota.
  2:{ unfold lift. rewrite struct_unpack_i by exact Hid. reflexivity. }
  rewrite (bind_Ok _ _ _ _ payload ((i + 1) * size + 1 + 4 + (size - 5))); cbv beta iota.
  2:{ apply (f_read_in (pre ++ [flag] ++ id_bytes) payload post).
      - rewrite Hf, <- !app_assoc. reflexivity.
      - lia.
      - rewrite !len_app. change (len [flag]) with 1. lia. }
  rewrite Hpay, Z.ltb_irrefl. reflexivity.
Qed.

(** The file ends at or before the offset of index [i]: no flag byte. *)
Lemma get_buffer_block_eof (i : Z) :
  0 <= (i + 1) * size ->
  len file <= (i + 1) * size ->
  get_buffer_block self i = Raise BlockOutOfRangeError.
Proof.
  intros Hoff Hlen. unfold get_buffer_block, with_open. fold file size.
  rewrite (bind_Ok _ _ _ _ tt ((i + 1) * size)); cbv beta iota.
  2:{ unfold f_seek. destruct (Z.ltb_spec ((i + 1) * size) 0);
        [lia | reflexivity]. }
  rewrite (bind_Ok _ _ _ _ (@nil byte) ((i + 1) * size)); cbv beta iota.
  2:{ apply f_read_eof; [lia | exact Hlen]. }
  reflexivity.
Qed.

(** The file ends inside the payload of index [i]. *)
Lemma get_buffer_block_cut_payload (i : Z) (pre : bytes) (flag : byte)
  (id_bytes payload : bytes) :
  file = pre ++ [flag] ++ id_bytes ++ payload ->
  len pre = (i + 1) * size ->
  length id_bytes = 4%nat ->
  len payload < size - 5 ->
  get_buffer_block self i = Raise BlockOutOfRangeError.
Proof.
  intros Hf Hpre Hid Hpay. unfold get_buffer_block, with_open.
  fold file size. pose proof (len_nonneg pre) as Hp.
  pose proof (len_nonneg payload) as Hp'.
  assert (len id_bytes = 4) as Hid' by (unfold len; lia).
  rewrite (bind_Ok _ _ _ _ tt ((i + 1) * size)); cbv beta iota.
  2:{ unfold f_seek. destruct (Z.ltb_spec ((i + 1) * size) 0);
        [lia | reflexivity]. }
  rewrite (bind_Ok _ _ _ _ [flag] ((i + 1) * size + 1)); cbv beta iota.
  2:{ apply (f_read_in pre [flag] (id_bytes ++ payload));
        [exact Hf | reflexivity | lia]. }
  rewrite (bind_Ok _ _ _ _ id_bytes ((i + 1) * size + 1 + 4)); cbv beta iota.
  2:{ apply (f_read_in (pre ++ [flag]) id_bytes payload).
      - rewrite Hf, <- app_assoc. reflexivity.
      - lia.
      - rewrite len_app. change (len [flag]) with 1. lia. }
  rewrite (bind_Ok _ _ _ _ [signed_from_bytes_big id_bytes]
             ((i + 1) * size + 1 + 4)); cbv beta iota.
  2:{ unfold lift. rewrite struct_unpack_i by exact Hid. reflexivity. }
  rewrite (bind_Ok _ _ _ _ payload
             ((i + 1) * size + 1 + 4 + len payload)); cbv beta iota.
  2:{ replace file with ((pre ++ [flag] ++ id_bytes) ++ payload)
        by (rewrite Hf, <- !app_assoc; reflexivity).
      apply f_read_short; [lia|].
      rewrite !len_app. change (len [flag]) with 1. lia. }
  destruct (Z.ltb_spec (len payload) (size - 5)); [reflexivity | lia].
Qed.

(** The file ends inside the four id bytes of index [i]: the error is
    [struct.error], which is no [ValueError]. *)
Lemma get_buffer_block_cut_prefix (i : Z) (pre : bytes) (flag : byte)
  (id_bytes : bytes) :
  file = pre ++ [flag] ++ id_bytes ->
  len pre = (i + 1) * size ->
  (length id_bytes < 4)%nat ->
  get_buffer_block self i = Raise struct_error.
Proof.
  intros Hf Hpre Hid. unfold get_buffer_block, with_open.
  fold file size. pose proof (len_nonneg pre) as Hp.
  rewrite (bind_Ok _ _ _ _ tt ((i + 1) * size)); cbv beta iota.
  2:{ unfold f_seek. destruct (Z.ltb_spec ((i + 1) * size) 0);
        [lia | reflexivity]. }
  rewrite (bind_Ok _ _ _ _ [flag] ((i + 1) * size + 1)); cbv beta iota.
  2:{ apply (f_read_in pre [flag] id_bytes);
        [exact Hf | reflexivity | lia]. }
  rewrite (bind_Ok _ _ _ _ id_bytes ((i + 1) * size + 1 + len id_bytes)); cbv beta iota.
  2:{ replace file with ((pre ++ [flag]) ++ id_bytes)
        by (rewrite Hf, <- app_assoc; reflexivity).
      apply f_read_short; [unfold len; lia|].
      rewrite len_app. change (len [flag]) with 1. lia. }
  rewrite (bind_Raise _ _ _ _ struct_error); [reflexivity|].
  unfold lift. rewrite struct_unpack_i_short by lia. reflexivity.
Qed.

End Blocks.

Section FullBlocks.

Lemma split_at {A} (l : list A) (n : Z) :
  0 <= n <= len l -> exists a b, l = a ++ b /\ len a = n.
Proof.
  intros Hn. exists (firstn (Z.to_nat n) l), (skipn (Z.to_nat n) l). split.
  - symmetry. apply firstn_skipn.
  - unfold len in *. rewrite firstn_length_le by lia. lia.
Qed.

Lemma len_one {A} (l : list A) : len l = 1 -> exists x, l = [x].
Proof.
  destruct l as [|x [|y l]]; unfold len; cbn; intros H; try lia.
  exists x. reflexivity.
Qed.

(** A file that ends with its last block.  With a block size of at
    least 5 (a block holds its 5 prefix bytes) and a file of exactly
    [N + 1] blocks of that size -- the header block and [N] blocks after
    it -- [get_buffer_block] returns, for every index from 0 to [N - 1],
    the flag byte, the decoded id and the payload that lie at the block's
    offset, and at index [N] it raises the block-out-of-range error. *)
Theorem full_blocks_read (self : LocalBufferFile) (N : Z) :
  5 <= block_size self ->
  0 <= N ->
  len (db_file self) = (N + 1) * block_size self ->
  (forall i, 0 <= i < N ->
     exists flag id_bytes payload,
       block_bytes self i = [flag] ++ id_bytes ++ payload /\
       length id_bytes = 4%nat /\
       len payload = block_size self - 5 /\
       get_buffer_block self i =
         Ok ([flag], payload, signed_from_bytes_big id_bytes)) /\
  get_buffer_block self N = Raise BlockOutOfRangeError.
Proof.
  intros Hsize HN Hlen. split.
  - intros i Hi.
    destruct (split_at (db_file self) ((i + 1) * block_size self))
      as (pre & r1 & Hf & Hpre); [nia|].
    assert (len r1 = len (db_file self) - (i + 1) * block_size self) as H1
      by (rewrite Hf, len_app; lia).
    destruct (split_at r1 1) as (fl & r2 & -> & Hfl); [nia|].
    destruct (len_one fl Hfl) as (flag & ->).
    rewrite len_app in H1. change (len [flag]) with 1 in H1.
    destruct (split_at r2 4) as (id_bytes & r3 & -> & Hid); [nia|].
    rewrite len_app in H1.
    destruct (split_at r3 (block_size self - 5))
      as (payload & post & -> & Hpay); [nia|].
    exists flag, id_bytes, payload. repeat split.
    + unfold block_bytes. rewrite Hf, <- Hpre, skipn_len_app.
      replace (block_size self) with (len ([flag] ++ id_bytes ++ payload))
        by (rewrite !len_app; change (len [flag]) with 1; lia).
      rewrite <- (firstn_len_app ([flag] ++ id_bytes ++ payload) post) at 2.
      rewrite <- !app_assoc. reflexivity.
    + unfold len in Hid. lia.
    + exact Hpay.
    + apply (get_buffer_block_Ok self i pre post); auto.
      unfold len in Hid. lia.
  - apply get_buffer_block_eof; nia.
Qed.

Lemma full_blocks_read_witness :
  (forall i, 0 <= i < 1 ->
     exists flag id_bytes payload,
       block_bytes scenario i = [flag] ++ id_bytes ++ payload /\
       length id_bytes = 4%nat /\
       len payload = block_size scenario - 5 /\
       get_buffer_block scenario i =
         Ok ([flag], payload, signed_from_bytes_big id_bytes)) /\
  get_buffer_block scenario 1 = Raise BlockOutOfRangeError.
Proof.
  apply (full_blocks_read scenario 1).
  - cbn. lia.
  - lia.
  - reflexivity.
Defined.

End FullBlocks.

(** ** The parameter table *)

Section Parameters.

Lemma f_read_eq (file pre data post : bytes) (n pos : Z) :
  file = pre ++ data ++ post -> n = len data -> pos = len pre ->
  f_read n file pos = Ok (data, pos + n).
Proof. intros ->. apply f_read_at. Qed.

Lemma well_formed_inv (e : entry) :
  well_formed e = true ->
  len (e_length e) = 4 /\
  signed_from_bytes_big (e_length e) = len (e_name e) /\
  utf_8_decode (e_name e) = Some (entry_name e) /\
  len (e_value e) = 4.
Proof.
  unfold well_formed, is_utf_8, entry_name, len. intros H.
  apply andb_prop in H as [H H4]. apply andb_prop in H as [H H3].
  apply andb_prop in H as [H1 H2].
  apply Nat.eqb_eq in H1, H4. apply Z.eqb_eq in H2.
  destruct (utf_8_decode (e_name e)); [|discriminate].
  repeat split; auto; lia.
Qed.

Ltac run_Ok a p := rewrite (bind_Ok _ _ _ _ a p); cbv beta iota.

(** One turn of the loop over a well-formed entry. *)
Lemma read_entry (n : nat) (d : dict) (file pre post : bytes) (e : entry) :
  well_formed e = true ->
  file = pre ++ entry_bytes e ++ post ->
  read_user_params_loop (S n) d file (len pre) =
    read_user_params_loop n (dict_setitem (entry_name e) (entry_value e) d)
      file (len pre + len (entry_bytes e)).
Proof.
  intros Hwf Hf. destruct (well_formed_inv e Hwf) as (H1 & H2 & H3 & H4).
  unfold entry_bytes in *. cbn [read_user_params_loop].
  run_Ok (e_length e) (len pre + 4).
  2:{ apply (f_read_eq file pre (e_length e) (e_name e ++ e_value e ++ post));
        [rewrite Hf, <- !app_assoc; reflexivity | lia | reflexivity]. }
  rewrite H1. change (4 <? 4) with false. cbv iota.
  run_Ok [signed_from_bytes_big (e_length e)] (len pre + 4).
  2:{ unfold lift. rewrite struct_unpack_i by (unfold len in H1; lia).
      reflexivity. }
  change (item [signed_from_bytes_big (e_length e)] 0)
    with (signed_from_bytes_big (e_length e)).
  rewrite H2.
  run_Ok (e_name e) (len pre + 4 + len (e_name e)).
  2:{ apply (f_read_eq file (pre ++ e_length e) (e_name e)
               (e_value e ++ post)).
      - rewrite Hf, <- !app_assoc. reflexivity.
      - reflexivity.
      - rewrite len_app. lia. }
  rewrite Z.ltb_irrefl.
  run_Ok (entry_name e) (len pre + 4 + len (e_name e)).
  2:{ unfold lift, decode_utf_8. rewrite H3. reflexivity. }
  run_Ok (e_value e) (len pre + 4 + len (e_name e) + 4).
  2:{ apply (f_read_eq file (pre ++ e_length e ++ e_name e) (e_value e) post).
      - rewrite Hf, <- !app_assoc. reflexivity.
      - lia.
      - rewrite !len_app. lia. }
  rewrite H4. change (4 <? 4) with false. cbv iota.
  run_Ok [signed_from_bytes_big (e_value e)]
    (len pre + 4 + len (e_name e) + 4).
  2:{ unfold lift. rewrite struct_unpack_i by (unfold len in H4; lia).
      reflexivity. }
  change (item [signed_from_bytes_big (e_value e)] 0) with (entry_value e).
  f_equal. rewrite !len_app. lia.
Qed.

(** The loop over a run of well-formed entries, with [n] turns left. *)
Lemma read_entries (es : list entry) :
  forall (n : nat) (d : dict) (file pre post : bytes),
    forallb well_formed es = true ->
    file = pre ++ table_bytes es ++ post ->
    read_user_params_loop (length es + n) d file (len pre) =
      read_user_params_loop n (insert_all es d) file
        (len pre + len (table_bytes es)).
Proof.
  induction es as [|e es IH]; intros n d file pre post Hwf Hf.
  - cbn. f_equal. unfold len. cbn. lia.
  - cbn [forallb] in Hwf. apply andb_prop in Hwf as [He Hes].
    change (table_bytes (e :: es)) with (entry_bytes e ++ table_bytes es)
      in *.
    cbn [length Nat.add].
    rewrite (read_entry _ d file pre (table_bytes es ++ post) e He)
      by (rewrite Hf, <- app_assoc; reflexivity).
    rewrite <- len_app.
    rewrite (IH n _ file (pre ++ entry_bytes e) post Hes)
      by (rewrite Hf, <- !app_assoc; reflexivity).
    cbn [insert_all fold_left]. f_equal. rewrite !len_app. lia.
Qed.

End Parameters.

(** ** The mapping *)

Section Mapping.

Lemma str_eqb_eq (a b : str) : str_eqb a b = true <-> a = b.
Proof.
  unfold str_eqb. destruct (list_eq_dec Z.eq_dec a b); split; congruence.
Qed.

Lemma str_eqb_refl (a : str) : str_eqb a a = true.
Proof. apply str_eqb_eq. reflexivity. Qed.

Lemma dict_get_setitem (k k' : str) (v : Z) (d : dict) :
  dict_get k (dict_setitem k' v d) =
    if str_eqb k k' then Some v else dict_get k d.
Proof.
  induction d as [|[k0 v0] d IH]; cbn.
  - reflexivity.
  - destruct (str_eqb k' k0) eqn:E0; cbn.
    + apply str_eqb_eq in E0. subst k0.
      destruct (str_eqb k k'); reflexivity.
    + destruct (str_eqb k k0) eqn:E1.
      * destruct (str_eqb k k') eqn:E2; [|reflexivity].
        apply str_eqb_eq in E1, E2. subst.
        rewrite str_eqb_refl in E0. discriminate.
      * exact IH.
Qed.

Lemma dict_keys_setitem (k : str) (v : Z) (d : dict) :
  dict_keys (dict_setitem k v d) =
    if existsb (str_eqb k) (dict_keys d) then dict_keys d
    else dict_keys d ++ [k].
Proof.
  unfold dict_keys. induction d as [|[k0 v0] d IH]; cbn.
  - reflexivity.
  - destruct (str_eqb k k0); cbn.
    + reflexivity.
    + rewrite IH. destruct (existsb (str_eqb k) (map fst d)); reflexivity.
Qed.

(** Looking a name up gives the value of the last entry of that name. *)
Lemma dict_get_insert_all (k : str) (es : list entry) :
  forall d : dict,
    dict_get k (insert_all es d) =
      fold_left
        (fun acc e => if str_eqb k (entry_name e) then Some (entry_value e)
                      else acc)
        es (dict_get k d).
Proof.
  induction es as [|e es IH]; intros d.
  - reflexivity.
  - cbn [insert_all fold_left]. fold (insert_all es).
    rewrite IH, dict_get_setitem. reflexivity.
Qed.

(** The keys are the names in order of first occurrence. *)
Lemma dict_keys_insert_all (es : list entry) :
  forall d : dict,
    dict_keys (insert_all es d) =
      fold_left
        (fun ks e => if existsb (str_eqb (entry_name e)) ks then ks
                     else ks ++ [entry_name e])
        es (dict_keys d).
Proof.
  induction es as [|e es IH]; intros d.
  - reflexivity.
  - cbn [insert_all fold_left]. fold (insert_all es).
    rewrite IH, dict_keys_setitem. reflexivity.
Qed.

Lemma setitem_fresh (k : str) (v : Z) (d : dict) :
  ~ In k (dict_keys d) -> dict_setitem k v d = d ++ [(k, v)].
Proof.
  unfold dict_keys. induction d as [|[k0 v0] d IH]; cbn; intros H.
  - reflexivity.
  - destruct (str_eqb k k0) eqn:E.
    + apply str_eqb_eq in E. subst. tauto.
    + rewrite IH by tauto. reflexivity.
Qed.

(** With names that are all different, the items are the entries in file
    order. *)
Lemma insert_all_distinct (es : list entry) :
  forall d : dict,
    NoDup (dict_keys d ++ map entry_name es) ->
    insert_all es d = d ++ map (fun e => (entry_name e, entry_value e)) es.
Proof.
  induction es as [|e es IH]; intros d H.
  - cbn. symmetry. apply app_nil_r.
  - cbn [insert_all fold_left map]. fold (insert_all es).
    assert (~ In (entry_name e) (dict_keys d)) as Hfresh.
    { intros Hin. apply NoDup_remove_2 in H. apply H.
      apply in_or_app. left. exact Hin. }
    rewrite setitem_fresh by exact Hfresh.
    rewrite IH.
    + rewrite <- app_assoc. reflexivity.
    + unfold dict_keys in *. rewrite map_app. cbn [map fst].
      rewrite <- app_assoc. exact H.
Qed.

End Mapping.

(** ** Loading a file *)

Section Loading.

Variables (header : bytes) (es : list entry).

Hypothesis header_length : length header = 32%nat.
Hypothesis entries_well_formed : forallb well_formed es = true.

Lemma read_header_blank (rest : bytes) :
  _read_header (blank (header ++ rest)) =
    Ok (after_header header (header ++ rest)).
Proof.
  apply (_read_header_Ok header rest (blank (header ++ rest)));
    [exact header_length | reflexivity].
Qed.

(** The loop reaches what follows the entries [es] with [n] turns left. *)
Lemma read_user_params_io_prefix (tail : bytes) (n : nat) :
  let file := header ++ table_bytes es ++ tail in
  header_param_count header = len es + Z.of_nat n ->
  read_user_params_io (after_header header file) file 0 =
    read_user_params_loop n (insert_all es []) file
      (32 + len (table_bytes es)).
Proof.
  intros file Hc. unfold read_user_params_io.
  rewrite (bind_Ok _ _ _ _ tt 32) by reflexivity. cbv beta.
  cbn [user_param_count user_params after_header].
  fold (header_param_count header). rewrite Hc. unfold len at 1. rewrite <- Nat2Z.inj_add, Nat2Z.id.
  replace 32 with (len header) by (unfold len; lia).
  apply (read_entries es n [] file header tail entries_well_formed).
  reflexivity.
Qed.

End Loading.

Section ParameterTable.

(** C8. For a file made of a 32-byte header that records [k] parameters,
    [k] well-formed entries at offset 32 and anything after them, the
    parameter-table read ends at offset 32 plus the length of the [k]
    entries, and the mapping it builds holds the entries inserted in file
    order: a name looks up to the value of its (last) entry and the keys
    iterate in order of first insertion.  With [k = 0] the mapping is
    empty and the read ends at offset 32. *)
Theorem parameter_table_read (header rest : bytes) (es : list entry) :
  length header = 32%nat ->
  header_param_count header = len es ->
  forallb well_formed es = true ->
  let file := header ++ table_bytes es ++ rest in
  let self := after_header header file in
  _read_header (blank file) = Ok self /\
  read_user_params_io self file 0 =
    Ok (insert_all es [], 32 + len (table_bytes es)) /\
  __init__ file = Ok (set_user_params self (insert_all es [])) /\
  (forall k, dict_get k (insert_all es []) = last_value k es) /\
  dict_keys (insert_all es []) = first_seen es /\
  (NoDup (map entry_name es) ->
   insert_all es [] = map (fun e => (entry_name e, entry_value e)) es) /\
  (es = [] ->
   insert_all es [] = [] /\ read_user_params_io self file 0 = Ok ([], 32)).
Proof.
  intros Hl Hc Hwf file self.
  assert (_read_header (blank file) = Ok self) as Hh
    by (apply read_header_blank; exact Hl).
  assert (read_user_params_io self file 0 =
            Ok (insert_all es [], 32 + len (table_bytes es))) as Hio.
  { unfold self, file.
    rewrite (read_user_params_io_prefix header es Hl Hwf rest 0)
      by (rewrite Hc; lia).
    reflexivity. }
  repeat split.
  - exact Hh.
  - exact Hio.
  - unfold __init__. rewrite Hh. unfold _read_user_params, with_open.
    change (db_file self) with file. rewrite Hio. reflexivity.
  - intros k. apply dict_get_insert_all.
  - apply dict_keys_insert_all.
  - intros Hnd. apply (insert_all_distinct es []). exact Hnd.
  - subst es. reflexivity.
  - rewrite Hio. subst es. reflexivity.
Qed.

Lemma parameter_table_read_witness :
  let file := scenario_header ++ table_bytes [scenario_entry]
                ++ (zeros 23 ++ scenario_block) in
  let self := after_header scenario_header file in
  _read_header (blank file) = Ok self /\
  read_user_params_io self file 0 =
    Ok (insert_all [scenario_entry] [],
        32 + len (table_bytes [scenario_entry])) /\
  __init__ file = Ok (set_user_params self (insert_all [scenario_entry] [])) /\
  (forall k, dict_get k (insert_all [scenario_entry] []) =
             last_value k [scenario_entry]) /\
  dict_keys (insert_all [scenario_entry] []) = first_seen [scenario_entry] /\
  (NoDup (map entry_name [scenario_entry]) ->
   insert_all [scenario_entry] [] =
     map (fun e => (entry_name e, entry_value e)) [scenario_entry]) /\
  ([scenario_entry] = [] ->
   insert_all [scenario_entry] [] = [] /\
   read_user_params_io self file 0 = Ok ([], 32)).
Proof.
  apply (parameter_table_read scenario_header (zeros 23 ++ scenario_block)
           [scenario_entry]); reflexivity.
Defined.

End ParameterTable.

(** ** Entries that cannot be read *)

Section BadEntries.

Variables (header : bytes) (es : list entry).

Hypothesis header_length : length header = 32%nat.
Hypothesis entries_well_formed : forallb well_formed es = true.
Hypothesis one_more : len es < header_param_count header.

Ltac run_Ok a p := rewrite (bind_Ok _ _ _ _ a p); cbv beta iota.

(** The state of the loop when it reaches what follows [es]. *)
Lemma next_entry (tail : bytes) :
  let file := header ++ table_bytes es ++ tail in
  exists n : nat,
    read_user_params_io (after_header header file) file 0 =
      read_user_params_loop (S n) (insert_all es []) file
        (len (header ++ table_bytes es)).
Proof.
  intros file. exists (Z.to_nat (header_param_count header - len es - 1)).
  unfold file.
  rewrite (read_user_params_io_prefix header es header_length
             entries_well_formed tail
             (S (Z.to_nat (header_param_count header - len es - 1))))
    by lia.
  rewrite len_app. f_equal. unfold len. lia.
Qed.

Lemma init_raises (file : bytes) (rest : bytes) (e : exn) :
  file = header ++ rest ->
  read_user_params_io (after_header header file) file 0 = Raise e ->
  _read_user_params (after_header header file) = Raise e /\
  __init__ file = Raise e.
Proof.
  intros Hf Hio.
  assert (_read_user_params (after_header header file) = Raise e) as H.
  { unfold _read_user_params, with_open.
    change (db_file (after_header header file)) with file.
    rewrite Hio. reflexivity. }
  split; [exact H|].
  unfold __init__. subst file. rewrite read_header_blank by assumption.
  exact H.
Qed.

(** Reading and unpacking the 4-byte length field of the next entry. *)
Ltac read_length lb rem pre Hf H4 :=
  rewrite (bind_Ok _ _ _ _ lb (len pre + 4))
    by (apply (f_read_eq _ pre lb rem);
        [exact Hf | unfold len; rewrite H4; reflexivity | reflexivity]);
  cbv beta iota;
  replace (len lb) with 4 by (unfold len; rewrite H4; reflexivity);
  change (4 <? 4) with false; cbv iota;
  rewrite (bind_Ok _ _ _ _ [signed_from_bytes_big lb] (len pre + 4))
    by (unfold lift; rewrite struct_unpack_i by exact H4; reflexivity);
  cbv beta iota;
  change (item [signed_from_bytes_big lb] 0) with (signed_from_bytes_big lb).

(** A name length above the number of bytes left: the name read comes up
    short. *)
Lemma oversized_io (length_bytes remaining : bytes) :
  let file := header ++ table_bytes es ++ length_bytes ++ remaining in
  length length_bytes = 4%nat ->
  len remaining < signed_from_bytes_big length_bytes ->
  read_user_params_io (after_header header file) file 0 =
    Raise TruncatedName.
Proof.
  intros file H4 Hbig.
  destruct (next_entry (length_bytes ++ remaining)) as [n Hn].
  fold file in Hn. rewrite Hn. cbn [read_user_params_loop].
  assert (file = (header ++ table_bytes es) ++ length_bytes ++ remaining)
    as Hf by (unfold file; rewrite <- app_assoc; reflexivity).
  read_length length_bytes remaining (header ++ table_bytes es) Hf H4.
  pose proof (len_nonneg remaining) as Hr.
  run_Ok remaining (len (header ++ table_bytes es) + 4 + len remaining).
  2:{ replace file
        with (((header ++ table_bytes es) ++ length_bytes) ++ remaining)
        by (rewrite Hf, <- !app_assoc; reflexivity).
      apply f_read_short; [lia|].
      rewrite (len_app _ length_bytes). unfold len at 3. lia. }
  destruct (Z.ltb_spec (len remaining) (signed_from_bytes_big length_bytes));
    [reflexivity | lia].
Qed.

(** A name of the announced length that is not UTF-8: [decode] raises. *)
Lemma invalid_name_io (e : entry) (rest : bytes) :
  let file := header ++ table_bytes es ++ entry_bytes e ++ rest in
  length (e_length e) = 4%nat ->
  signed_from_bytes_big (e_length e) = len (e_name e) ->
  utf_8_decode (e_name e) = None ->
  read_user_params_io (after_header header file) file 0 =
    Raise UnicodeDecodeError.
Proof.
  intros file H4 Hn Hbad.
  destruct (next_entry (entry_bytes e ++ rest)) as [n Hnext].
  fold file in Hnext. rewrite Hnext. cbn [read_user_params_loop].
  assert (file = (header ++ table_bytes es)
                   ++ e_length e ++ (e_name e ++ e_value e ++ rest))
    as Hf by (unfold file, entry_bytes; rewrite <- !app_assoc; reflexivity).
  read_length (e_length e) (e_name e ++ e_value e ++ rest)
    (header ++ table_bytes es) Hf H4.
  rewrite Hn.
  run_Ok (e_name e) (len (header ++ table_bytes es) + 4 + len (e_name e)).
  2:{ apply (f_read_eq file ((header ++ table_bytes es) ++ e_length e)
               (e_name e) (e_value e ++ rest)).
      - rewrite Hf, <- !app_assoc. reflexivity.
      - reflexivity.
      - rewrite (len_app _ (e_length e)). unfold len at 3. lia. }
  rewrite Z.ltb_irrefl.
  apply bind_Raise. unfold lift, decode_utf_8. rewrite Hbad. reflexivity.
Qed.

(** A name length below -1: [read] itself raises. *)
Lemma below_minus_one_io (length_bytes remaining : bytes) :
  let file := header ++ table_bytes es ++ length_bytes ++ remaining in
  length length_bytes = 4%nat ->
  signed_from_bytes_big length_bytes < -1 ->
  read_user_params_io (after_header header file) file 0 =
    Raise (ValueError "read length must be non-negative or -1").
Proof.
  intros file H4 Hneg.
  destruct (next_entry (length_bytes ++ remaining)) as [n Hn].
  fold file in Hn. rewrite Hn. cbn [read_user_params_loop].
  assert (file = (header ++ table_bytes es) ++ length_bytes ++ remaining)
    as Hf by (unfold file; rewrite <- app_assoc; reflexivity).
  read_length length_bytes remaining (header ++ table_bytes es) Hf H4.
  apply bind_Raise. unfold f_read.
  destruct (Z.ltb_spec (signed_from_bytes_big length_bytes) (-1));
    [reflexivity | lia].
Qed.

(** A name length of -1: the rest of the file is taken as the name, the
    length check passes, and the load fails at [decode] or at the value
    read. *)
Lemma minus_one_io (length_bytes remaining : bytes) :
  let file := header ++ table_bytes es ++ length_bytes ++ remaining in
  length length_bytes = 4%nat ->
  signed_from_bytes_big length_bytes = -1 ->
  read_user_params_io (after_header header file) file 0 =
    if is_utf_8 remaining then Raise TruncatedValue
    else Raise UnicodeDecodeError.
Proof.
  intros file H4 Hneg.
  destruct (next_entry (length_bytes ++ remaining)) as [n Hn].
  fold file in Hn. rewrite Hn. cbn [read_user_params_loop].
  assert (file = (header ++ table_bytes es) ++ length_bytes ++ remaining)
    as Hf by (unfold file; rewrite <- app_assoc; reflexivity).
  read_length length_bytes remaining (header ++ table_bytes es) Hf H4.
  rewrite Hneg.
  assert (len file = len (header ++ table_bytes es) + 4 + len remaining)
    as Hlen by (rewrite Hf, !len_app; unfold len at 3; lia).
  run_Ok remaining (len (header ++ table_bytes es) + 4 + len remaining).
  2:{ unfold f_read. change (-1 <? -1) with false.
      change (-1 =? -1) with true. cbv iota.
      replace file
        with (((header ++ table_bytes es) ++ length_bytes) ++ remaining)
        by (rewrite Hf, <- !app_assoc; reflexivity).
      replace (len (header ++ table_bytes es) + 4)
        with (len ((header ++ table_bytes es) ++ length_bytes))
        by (rewrite (len_app _ length_bytes); unfold len in *; lia).
      rewrite skipn_len_app. reflexivity. }
  pose proof (len_nonneg remaining) as Hr.
  destruct (Z.ltb_spec (len remaining) (-1)); [lia|].
  unfold is_utf_8.
  destruct (utf_8_decode remaining) as [name|] eqn:Hd.
  - run_Ok name (len (header ++ table_bytes es) + 4 + len remaining).
    2:{ unfold lift, decode_utf_8. rewrite Hd. reflexivity. }
    run_Ok (@nil byte) (len (header ++ table_bytes es) + 4 + len remaining).
    2:{ apply f_read_eof; lia. }
    reflexivity.
  - apply bind_Raise. unfold lift, decode_utf_8. rewrite Hd. reflexivity.
Qed.

End BadEntries.

Section NameLength.

(** C5, as amended. When the loop reaches an entry whose 4-byte name
    length is larger than the number of bytes that remain after the
    length field, the name read comes up short and the load fails with the
    truncated-name error; the length is not checked before the read. *)
Theorem oversized_name_length (header : bytes) (es : list entry)
  (length_bytes remaining : bytes) :
  length header = 32%nat ->
  forallb well_formed es = true ->
  len es < header_param_count header ->
  length length_bytes = 4%nat ->
  len remaining < signed_from_bytes_big length_bytes ->
  let file := header ++ table_bytes es ++ length_bytes ++ remaining in
  _read_user_params (after_header header file) = Raise TruncatedName /\
  __init__ file = Raise TruncatedName /\
  TruncatedParameterError TruncatedName.
Proof.
  intros Hl Hwf Hc H4 Hbig file.
  destruct (init_raises header Hl file
              (table_bytes es ++ length_bytes ++ remaining) TruncatedName)
    as [H1 H2].
  - reflexivity.
  - apply (oversized_io header es Hl Hwf Hc length_bytes remaining H4 Hbig).
  - repeat split; [exact H1 | exact H2 |].
    right. left. reflexivity.
Qed.

Lemma oversized_name_length_witness :
  let file := scenario_header ++ table_bytes [] ++ ten_length ++ three_left in
  _read_user_params (after_header scenario_header file) =
    Raise TruncatedName /\
  __init__ file = Raise TruncatedName /\
  TruncatedParameterError TruncatedName.
Proof.
  apply (oversized_name_length scenario_header [] ten_length three_left);
    reflexivity.
Defined.

(** C5, as claimed, fails for negative name lengths.  With -1 the read
    returns the rest of the file, the length check passes, and the load
    fails at the decoding of the name (here the byte 0xFF) or, when
    nothing follows, at the value read; with -2 it is [read] that raises.
    None of them is the truncated-name error. *)
Lemma negative_name_length_counterexample :
  signed_from_bytes_big [xff; xff; xff; xff] = -1 /\
  __init__ minus_one_length_file = Raise UnicodeDecodeError /\
  ~ TruncatedParameterError UnicodeDecodeError /\
  __init__ (one_param_header ++ [xff; xff; xff; xff]) =
    Raise TruncatedValue /\
  TruncatedValue <> TruncatedName /\
  signed_from_bytes_big [xff; xff; xff; xfe] = -2 /\
  __init__ minus_two_length_file =
    Raise (ValueError "read length must be non-negative or -1") /\
  ~ TruncatedParameterError
      (ValueError "read length must be non-negative or -1").
Proof.
  repeat split; try (vm_compute; reflexivity); try discriminate;
    intros [H | [H | H]]; discriminate H.
Qed.

(** What a negative name length does, in general. *)
Lemma negative_name_length (header : bytes) (es : list entry)
  (length_bytes remaining : bytes) :
  length header = 32%nat ->
  forallb well_formed es = true ->
  len es < header_param_count header ->
  length length_bytes = 4%nat ->
  signed_from_bytes_big length_bytes < 0 ->
  let file := header ++ table_bytes es ++ length_bytes ++ remaining in
  __init__ file =
    if signed_from_bytes_big length_bytes <? -1
    then Raise (ValueError "read length must be non-negative or -1")
    else if is_utf_8 remaining then Raise TruncatedValue
    else Raise UnicodeDecodeError.
Proof.
  intros Hl Hwf Hc H4 Hneg file.
  assert (forall e, read_user_params_io (after_header header file) file 0 =
                      Raise e -> __init__ file = Raise e) as Hinit.
  { intros e He.
    apply (init_raises header Hl file
             (table_bytes es ++ length_bytes ++ remaining) e);
      [reflexivity | exact He]. }
  destruct (Z.ltb_spec (signed_from_bytes_big length_bytes) (-1)).
  - apply Hinit.
    apply (below_minus_one_io header es Hl Hwf Hc); assumption.
  - pose proof (minus_one_io header es Hl Hwf Hc length_bytes remaining H4)
      as H1. cbv zeta in H1. fold file in H1.
    destruct (is_utf_8 remaining); apply Hinit, H1; lia.
Qed.

End NameLength.

Section InvalidName.

(** A name that is fully present and is not UTF-8 makes the load fail
    with [UnicodeDecodeError]. *)
Lemma invalid_name_raises (header : bytes) (es : list entry) (e : entry)
  (rest : bytes) :
  length header = 32%nat ->
  forallb well_formed es = true ->
  len es < header_param_count header ->
  length (e_length e) = 4%nat ->
  signed_from_bytes_big (e_length e) = len (e_name e) ->
  utf_8_decode (e_name e) = None ->
  __init__ (header ++ table_bytes es ++ entry_bytes e ++ rest) =
    Raise UnicodeDecodeError.
Proof.
  intros Hl Hwf Hc H4 Hn Hbad.
  apply (init_raises header Hl _ (table_bytes es ++ entry_bytes e ++ rest));
    [reflexivity|].
  apply (invalid_name_io header es Hl Hwf Hc e rest H4 Hn Hbad).
Qed.

(** C10. There is a parameter entry with its three fields fully present
    (a 4-byte length equal to the number of name bytes, the name, a
    4-byte value) and a name that is not UTF-8, at which the load is
    aborted by [UnicodeDecodeError]: an error that is none of the
    truncated-parameter errors and none of the errors of the taxonomy. *)
Theorem invalid_utf8_name_error :
  bad_name_file =
    one_param_header ++ entry_bytes bad_name_entry
      ++ zeros 23 ++ scenario_block /\
  length (e_length bad_name_entry) = 4%nat /\
  signed_from_bytes_big (e_length bad_name_entry) =
    len (e_name bad_name_entry) /\
  length (e_value bad_name_entry) = 4%nat /\
  utf_8_decode (e_name bad_name_entry) = None /\
  __init__ bad_name_file = Raise UnicodeDecodeError /\
  ~ TruncatedParameterError UnicodeDecodeError /\
  ~ in_taxonomy UnicodeDecodeError.
Proof.
  do 5 (split; [reflexivity|]).
  split; [|split].
  - apply (invalid_name_raises one_param_header [] bad_name_entry
             (zeros 23 ++ scenario_block)); reflexivity.
  - intros [H | [H | H]]; discriminate H.
  - intros [H | [[H | [H | H]] | H]]; discriminate H.
Qed.

End InvalidName.

(** ** The block count of [info] *)

Section Enumeration.

(** A turn of the loop after a read that succeeded: the index passed
    next is the id stored in the block that was read, plus one. *)
Lemma info_loop_next (fuel : nat) (self : LocalBufferFile) (block_id : Z)
  (calls : list Z) (flags block_data : bytes) (stored_id : Z) :
  get_buffer_block self (block_id + 1) = Ok (flags, block_data, stored_id) ->
  info_loop (S fuel) self block_id calls =
    info_loop fuel self stored_id (calls ++ [block_id + 1]).
Proof. intros H. cbn [info_loop]. rewrite H. reflexivity. Qed.

(** A turn of the loop at a read that raises [ValueError]: the loop ends
    and the index of that read is the number printed. *)
Lemma info_loop_stop (fuel : nat) (self : LocalBufferFile) (block_id : Z)
  (calls : list Z) (e : exn) :
  get_buffer_block self (block_id + 1) = Raise e ->
  isinstance_ValueError e = true ->
  info_loop (S fuel) self block_id calls =
    Returns (block_id + 1) (calls ++ [block_id + 1]).
Proof. intros H He. cbn [info_loop]. rewrite H, He. reflexivity. Qed.

(** C1. On a file with three full blocks whose stored ids are 1, 0 and 7,
    [info] passes the indices 0, 2 and 8 to [get_buffer_block]: index 1
    is skipped, and 8 is printed as the number of blocks.  On the file
    whose only block stores -1, index 0 is passed again and again. *)
Theorem info_indices_follow_stored_ids :
  __init__ three_blocks_file = Ok three_blocks /\
  (forall fuel, info (2 + fuel) three_blocks = Returns 8 [0; 2; 8]) /\
  __init__ free_chain_file = Ok free_chain /\
  info 3 free_chain = Running [0; 0; 0; 0].
Proof.
  split; [vm_compute; reflexivity|].
  split; [intros fuel; vm_compute; reflexivity|].
  split; vm_compute; reflexivity.
Qed.

(** C2. The scenario file decodes to block size 64, one parameter and
    the mapping of ["x"] to 7; block 0 reads as flags 0, id 5 and 59 zero
    bytes; block 1 is out of range; and the number [info] prints is 6,
    the id stored in block 0 plus one, not 1. *)
Theorem scenario_decoding :
  __init__ scenario_file = Ok scenario /\
  block_size scenario = 64 /\
  user_param_count scenario = 1 /\
  utf_8_decode [x78] = Some [120] /\
  user_params scenario = [([120], 7)] /\
  get_buffer_block scenario 0 = Ok ([x00], zeros 59, 5) /\
  get_buffer_block scenario 1 = Raise BlockOutOfRangeError /\
  (forall fuel, info (S fuel) scenario = Returns 6 [0; 6]).
Proof.
  do 7 (split; [vm_compute; reflexivity|]).
  intros fuel. vm_compute. reflexivity.
Qed.

(** Without the padding of the header block the first read of [info]
    already fails, outside the [try]. *)
Lemma packed_scenario_decoding :
  exists self,
    __init__ packed_scenario_file = Ok self /\
    get_buffer_block self 0 = Raise BlockOutOfRangeError /\
    forall fuel, info fuel self = Raises BlockOutOfRangeError [0].
Proof.
  eexists. split; [vm_compute; reflexivity|].
  split; [vm_compute; reflexivity|].
  intros fuel. vm_compute. reflexivity.
Qed.

(** C3. On a file that ends two bytes into the id of block 1 (block size
    64), the read of block 1 raises [struct.error]: not the
    block-out-of-range error and no [ValueError], so that the loop of
    [info] does not catch it and [info] ends with that exception. *)
Theorem cut_prefix_raises_struct_error :
  __init__ cut_prefix_file = Ok cut_prefix /\
  len cut_prefix_file = 2 * 64 + 3 /\
  get_buffer_block cut_prefix 1 = Raise struct_error /\
  struct_error <> BlockOutOfRangeError /\
  isinstance_ValueError struct_error = false /\
  (forall fuel, info (S fuel) cut_prefix = Raises struct_error [0; 1]).
Proof.
  split; [vm_compute; reflexivity|].
  split; [vm_compute; reflexivity|].
  split; [vm_compute; reflexivity|].
  split; [discriminate|].
  split; [reflexivity|].
  intros fuel. vm_compute. reflexivity.
Qed.

Lemma free_chain_loop (fuel : nat) :
  forall calls : list Z,
    info_loop fuel free_chain (-1) calls = Running (calls ++ repeat 0 fuel).
Proof.
  induction fuel as [|fuel IH]; intros calls.
  - cbn. rewrite app_nil_r. reflexivity.
  - rewrite (info_loop_next fuel free_chain (-1) calls [x01] (zeros 59) (-1))
      by (vm_compute; reflexivity).
    rewrite IH, <- app_assoc. reflexivity.
Qed.

(** C4. The file whose only block is empty and ends the free chain
    (stored index -1) has block size 64, and [info] never leaves its loop
    on it: whatever the number of turns, it is still reading block 0. *)
Theorem info_never_returns_on_free_block :
  __init__ free_chain_file = Ok free_chain /\
  block_size free_chain = 64 /\
  get_buffer_block free_chain 0 = Ok ([x01], zeros 59, -1) /\
  (forall fuel, info fuel free_chain = Running (repeat 0 (S fuel))).
Proof.
  do 3 (split; [vm_compute; reflexivity|]).
  intros fuel. unfold info.
  replace (get_buffer_block free_chain 0) with
    (@Ok (bytes * bytes * Z) ([x01], zeros 59, -1))
    by (vm_compute; reflexivity).
  apply (free_chain_loop fuel [0]).
Qed.

End Enumeration.

(** * Further properties *)

(** ** The outcome of a block read *)

Section BlockOutcome.

Ltac run_Ok a p := rewrite (bind_Ok _ _ _ _ a p); cbv beta iota.

(** Once the flag byte and the four id bytes are read, the outcome is
    decided by the payload read. *)
Lemma get_buffer_block_prefix (self : LocalBufferFile) (i : Z)
  (pre rest : bytes) (flag : byte) (id_bytes : bytes) :
  db_file self = pre ++ [flag] ++ id_bytes ++ rest ->
  len pre = (i + 1) * block_size self ->
  length id_bytes = 4%nat ->
  get_buffer_block self i =
    match f_read (block_size self - 5) (db_file self) (len pre + 5) with
    | Ok (block_data, _) =>
        if len block_data <? block_size self - 5
        then Raise BlockOutOfRangeError
        else Ok ([flag], block_data, signed_from_bytes_big id_bytes)
    | Raise e => Raise e
    end.
Proof.
  intros Hf Hpre Hid. unfold get_buffer_block, with_open.
  pose proof (len_nonneg pre) as Hp.
  assert (len id_bytes = 4) as Hid' by (unfold len; lia).
  rewrite <- Hpre.
  run_Ok tt (len pre).
  2:{ unfold f_seek. destruct (Z.ltb_spec (len pre) 0);
        [lia | reflexivity]. }
  run_Ok [flag] (len pre + 1).
  2:{ apply (f_read_eq _ pre [flag] (id_bytes ++ rest));
        [exact Hf | reflexivity | reflexivity]. }
  run_Ok id_bytes (len pre + 1 + 4).
  2:{ apply (f_read_eq _ (pre ++ [flag]) id_bytes rest).
      - rewrite Hf, <- app_assoc. reflexivity.
      - lia.
      - rewrite len_app. reflexivity. }
  run_Ok [signed_from_bytes_big id_bytes] (len pre + 1 + 4).
  2:{ unfold lift. rewrite struct_unpack_i by exact Hid. reflexivity. }
  change (item [signed_from_bytes_big id_bytes] 0)
    with (signed_from_bytes_big id_bytes).
  replace (len pre + 1 + 4) with (len pre + 5) by lia.
  unfold bind.
  destruct (f_read (block_size self - 5) (db_file self) (len pre + 5))
    as [[block_data pos]|e]; [|reflexivity].
  destruct (len block_data <? block_size self - 5); reflexivity.
Qed.

(** The bytes of a file from an offset inside it. *)
Lemma split_file (file : bytes) (offset : Z) :
  0 <= offset < len file ->
  exists pre flag rest,
    file = pre ++ [flag] ++ rest /\ len pre = offset /\
    len rest = len file - offset - 1.
Proof.
  intros H.
  destruct (split_at file offset) as (pre & r & Hf & Hpre); [lia|].
  assert (len r = len file - offset) as Hr by (rewrite Hf, len_app; lia).
  destruct (split_at r 1) as (fl & rest & -> & Hfl); [lia|].
  destruct (len_one fl Hfl) as (flag & ->).
  exists pre, flag, rest. repeat split; auto.
  rewrite len_app in Hr. change (len [flag]) with 1 in Hr. lia.
Qed.

Lemma four_bytes (l : bytes) :
  length l = 4%nat -> exists a b c d, l = [a; b; c; d].
Proof.
  destruct l as [|a [|b [|c [|d [|e l]]]]]; cbn; intros H; try lia.
  exists a, b, c, d. reflexivity.
Qed.

(** The method and the decision table agree. *)
Lemma block_outcome_correct (self : LocalBufferFile) (i : Z) :
  5 <= block_size self ->
  get_buffer_block self i = block_outcome self i.
Proof.
  intros Hsize. unfold block_outcome.
  set (offset := (i + 1) * block_size self) in *.
  destruct (Z.ltb_spec offset 0) as [Hneg|Hnn].
  { unfold get_buffer_block, with_open. fold offset.
    rewrite (bind_Raise _ _ _ _ OSError); [reflexivity|].
    unfold f_seek. destruct (Z.ltb_spec offset 0); [reflexivity | lia]. }
  destruct (Z.leb_spec (len (db_file self)) offset) as [Heof|Hin].
  { apply get_buffer_block_eof; fold offset; lia. }
  destruct (split_file (db_file self) offset) as (pre & flag & r & Hf & Hpre & Hr);
    [lia|].
  destruct (Z.ltb_spec (len (db_file self)) (offset + 5)) as [Hcut|Hpref].
  { apply (get_buffer_block_cut_prefix self i pre flag r);
      [exact Hf | exact Hpre | unfold len in *; lia]. }
  destruct (split_at r 4) as (id_bytes & r' & -> & Hid); [lia|].
  rewrite len_app in Hr.
  assert (length id_bytes = 4%nat) as Hid' by (unfold len in Hid; lia).
  destruct (Z.ltb_spec (len (db_file self)) (offset + block_size self))
    as [Hshort|Hfull].
  { apply (get_buffer_block_cut_payload self i pre flag id_bytes r');
      [exact Hf | exact Hpre | exact Hid' | lia]. }
  destruct (split_at r' (block_size self - 5))
    as (payload & post & -> & Hpay); [lia|].
  rewrite (get_buffer_block_Ok self i pre post flag id_bytes payload
             Hf Hpre Hid' Hpay).
  assert (block_bytes self i = [flag] ++ id_bytes ++ payload) as Hb.
  { unfold block_bytes. fold offset. rewrite Hf, <- Hpre, skipn_len_app.
    replace (block_size self) with (len ([flag] ++ id_bytes ++ payload))
      by (rewrite !len_app; change (len [flag]) with 1; lia).
    rewrite <- (firstn_len_app ([flag] ++ id_bytes ++ payload) post) at 2.
    rewrite <- !app_assoc. reflexivity. }
  rewrite Hb. destruct (four_bytes id_bytes Hid') as (a & b & c & d & ->).
  reflexivity.
Qed.



(** X2. Index -1 is no error: with a block size of at least 5 and a
    file of at least that size, [get_buffer_block(-1)] returns the start of
    the file, the header, as a block. *)
Theorem get_buffer_block_minus_one_reads_header (self : LocalBufferFile) :
  5 <= block_size self ->
  block_size self <= len (db_file self) ->
  exists flag id_bytes payload,
    firstn (Z.to_nat (block_size self)) (db_file self) =
      [flag] ++ id_bytes ++ payload /\
    length id_bytes = 4%nat /\
    get_buffer_block self (-1) =
      Ok ([flag], payload, signed_from_bytes_big id_bytes).
Proof.
  intros Hsize Hlen.
  destruct (split_at (db_file self) (block_size self))
    as (blk & post & Hf & Hblk); [lia|].
  destruct (split_at blk 1) as (fl & r & -> & Hfl); [lia|].
  destruct (len_one fl Hfl) as (flag & ->).
  rewrite len_app in Hblk. change (len [flag]) with 1 in Hblk.
  destruct (split_at r 4) as (id_bytes & payload & -> & Hid); [lia|].
  rewrite len_app in Hblk.
  exists flag, id_bytes, payload. split; [|split].
  - rewrite Hf.
    replace (block_size self) with (len ([flag] ++ id_bytes ++ payload))
      by (rewrite !len_app; change (len [flag]) with 1; lia).
    apply firstn_len_app.
  - unfold len in Hid. lia.
  - apply (get_buffer_block_Ok self (-1) [] post flag id_bytes payload).
    + rewrite Hf, <- !app_assoc. reflexivity.
    + reflexivity.
    + unfold len in Hid. lia.
    + lia.
Qed.

Lemma get_buffer_block_minus_one_reads_header_witness :
  exists flag id_bytes payload,
    firstn (Z.to_nat (block_size scenario)) (db_file scenario) =
      [flag] ++ id_bytes ++ payload /\
    length id_bytes = 4%nat /\
    get_buffer_block scenario (-1) =
      Ok ([flag], payload, signed_from_bytes_big id_bytes).
Proof.
  apply (get_buffer_block_minus_one_reads_header scenario).
  - cbn. lia.
  - vm_compute. discriminate.
Defined.

(** X3. With a block size below 4, a read at an offset where the five
    prefix bytes are present fails inside [f.read]: the payload length
    [block_size - 5] is below -1 and [read] raises [ValueError], which is
    not the out-of-range error but is caught as one by [info]. *)
Theorem get_buffer_block_tiny_block_size (self : LocalBufferFile) (i : Z) :
  block_size self < 4 ->
  0 <= (i + 1) * block_size self ->
  (i + 1) * block_size self + 5 <= len (db_file self) ->
  get_buffer_block self i =
    Raise (ValueError "read length must be non-negative or -1") /\
  isinstance_ValueError
    (ValueError "read length must be non-negative or -1") = true.
Proof.
  intros Hsize Hoff Hlen. split; [|reflexivity].
  destruct (split_file (db_file self) ((i + 1) * block_size self))
    as (pre & flag & r & Hf & Hpre & Hr); [lia|].
  destruct (split_at r 4) as (id_bytes & rest & -> & Hid); [lia|].
  rewrite (get_buffer_block_prefix self i pre rest flag id_bytes Hf Hpre)
    by (unfold len in Hid; lia).
  unfold f_read.
  destruct (Z.ltb_spec (block_size self - 5) (-1)); [reflexivity | lia].
Qed.

Lemma get_buffer_block_tiny_block_size_witness :
  get_buffer_block (mkLocalBufferFile scenario_file 0 0 0 0 0 0 []) 7 =
    Raise (ValueError "read length must be non-negative or -1") /\
  isinstance_ValueError
    (ValueError "read length must be non-negative or -1") = true.
Proof.
  apply (get_buffer_block_tiny_block_size
           (mkLocalBufferFile scenario_file 0 0 0 0 0 0 []) 7).
  - cbn. lia.
  - cbn. lia.
  - vm_compute. discriminate.
Defined.

(** X4. With a block size of exactly 4 the payload length is -1, and a
    read at an offset where the five prefix bytes are present succeeds
    and returns as payload all the bytes up to the end of the file. *)
Theorem get_buffer_block_block_size_4 (self : LocalBufferFile) (i : Z)
  (pre rest : bytes) (flag : byte) (id_bytes : bytes) :
  block_size self = 4 ->
  db_file self = pre ++ [flag] ++ id_bytes ++ rest ->
  len pre = (i + 1) * 4 ->
  length id_bytes = 4%nat ->
  get_buffer_block self i =
    Ok ([flag], rest, signed_from_bytes_big id_bytes).
Proof.
  intros Hsize Hf Hpre Hid.
  rewrite (get_buffer_block_prefix self i pre rest flag id_bytes Hf)
    by (rewrite ?Hsize; assumption).
  rewrite Hsize. unfold f_read. change (4 - 5 <? -1) with false.
  change (4 - 5 =? -1) with true. cbv iota.
  replace (db_file self) with ((pre ++ [flag] ++ id_bytes) ++ rest)
    by (rewrite Hf, <- !app_assoc; reflexivity).
  replace (len pre + 5) with (len (pre ++ [flag] ++ id_bytes))
    by (rewrite !len_app; change (len [flag]) with 1; unfold len; lia).
  rewrite skipn_len_app.
  pose proof (len_nonneg rest).
  destruct (Z.ltb_spec (len rest) (4 - 5)); [lia | reflexivity].
Qed.

Lemma get_buffer_block_block_size_4_witness :
  get_buffer_block (mkLocalBufferFile scenario_header 0 0 0 4 0 0 []) 0 =
    Ok ([x55], firstn 23 (skipn 9 scenario_header),
        signed_from_bytes_big [x66; x77; x88; x00]).
Proof.
  apply (get_buffer_block_block_size_4
           (mkLocalBufferFile scenario_header 0 0 0 4 0 0 []) 0
           [x11; x22; x33; x44]); reflexivity.
Defined.

End BlockOutcome.

(** ** More on the header *)

Section HeaderFields.

Lemma signed_field_range (bs : bytes) (n : nat) :
  length bs = S n ->
  - 2 ^ (8 * Z.of_nat (S n) - 1) <= signed_from_bytes_big bs
    < 2 ^ (8 * Z.of_nat (S n) - 1).
Proof.
  intros H. assert (bs <> []) as Hne by (destruct bs; cbn in H; congruence).
  pose proof (signed_from_bytes_big_range bs Hne) as R.
  unfold len in R. rewrite H in R. exact R.
Qed.

(** X5. [_read_header] accepts any file of at least 32 bytes: no field
    is validated.  It keeps the path and the parameters of the object, and
    the six fields it sets lie in the ranges of signed 64-bit (magic
    number, file id) and signed 32-bit integers (the other four). *)
Theorem read_header_accepts_any_32_bytes (self : LocalBufferFile) :
  (32 <= length (db_file self))%nat ->
  exists self',
    _read_header self = Ok self' /\
    db_file self' = db_file self /\
    user_params self' = user_params self /\
    - 2 ^ 63 <= magic_number self' < 2 ^ 63 /\
    - 2 ^ 63 <= file_id self' < 2 ^ 63 /\
    - 2 ^ 31 <= version self' < 2 ^ 31 /\
    - 2 ^ 31 <= block_size self' < 2 ^ 31 /\
    - 2 ^ 31 <= first_free_block self' < 2 ^ 31 /\
    - 2 ^ 31 <= user_param_count self' < 2 ^ 31.
Proof.
  intros Hl.
  pose (header := firstn 32 (db_file self)).
  assert (length header = 32%nat) as Hh
    by (unfold header; rewrite length_firstn; lia).
  eexists. split.
  - apply (_read_header_Ok header (skipn 32 (db_file self)) self Hh).
    unfold header. symmetry. apply firstn_skipn.
  - cbn [db_file user_params magic_number file_id version block_size
           first_free_block user_param_count].
    unfold item, header_fmt, unpack_fields, fmt_size. cbn [nth].
    repeat split; auto;
      try (apply (signed_field_range _ 7);
           rewrite ?length_firstn, ?length_skipn; lia);
      try (apply (signed_field_range _ 3);
           rewrite ?length_firstn, ?length_skipn; lia).
Qed.

Lemma read_header_accepts_any_32_bytes_witness :
  exists self',
    _read_header (blank scenario_file) = Ok self' /\
    db_file self' = db_file (blank scenario_file) /\
    user_params self' = user_params (blank scenario_file) /\
    - 2 ^ 63 <= magic_number self' < 2 ^ 63 /\
    - 2 ^ 63 <= file_id self' < 2 ^ 63 /\
    - 2 ^ 31 <= version self' < 2 ^ 31 /\
    - 2 ^ 31 <= block_size self' < 2 ^ 31 /\
    - 2 ^ 31 <= first_free_block self' < 2 ^ 31 /\
    - 2 ^ 31 <= user_param_count self' < 2 ^ 31.
Proof.
  apply (read_header_accepts_any_32_bytes (blank scenario_file)).
  vm_compute. lia.
Defined.

(** X6. The header decoding loses nothing: two files whose headers
    decode to the same six fields have the same first 32 bytes. *)
Theorem read_header_injective (header1 rest1 header2 rest2 : bytes) :
  length header1 = 32%nat ->
  length header2 = 32%nat ->
  header_fields (after_header header1 (header1 ++ rest1)) =
    header_fields (after_header header2 (header2 ++ rest2)) ->
  _read_header (blank (header1 ++ rest1)) =
    Ok (after_header header1 (header1 ++ rest1)) /\
  _read_header (blank (header2 ++ rest2)) =
    Ok (after_header header2 (header2 ++ rest2)) /\
  header1 = header2.
Proof.
  intros H1 H2 Heq.
  split; [apply read_header_blank; exact H1|].
  split; [apply read_header_blank; exact H2|].
  assert (forall h r, header_fields (after_header h (h ++ r)) =
                      unpack_fields header_fmt h) as Hf
    by (intros h r; reflexivity).
  rewrite !Hf in Heq.
  pose proof (struct_pack_unpack_fields header_fmt header1 H1) as P1.
  pose proof (struct_pack_unpack_fields header_fmt header2 H2) as P2.
  rewrite Heq in P1. rewrite P1 in P2. congruence.
Qed.

Lemma read_header_injective_witness :
  _read_header (blank (scenario_header ++ [])) =
    Ok (after_header scenario_header (scenario_header ++ [])) /\
  _read_header (blank (scenario_header ++ [x00])) =
    Ok (after_header scenario_header (scenario_header ++ [x00])) /\
  scenario_header = scenario_header.
Proof.
  apply (read_header_injective scenario_header [] scenario_header [x00]);
    reflexivity.
Defined.

End HeaderFields.

(** ** More on the parameter table *)

Section TruncatedEntries.

Variables (header : bytes) (es : list entry).

Hypothesis header_length : length header = 32%nat.
Hypothesis entries_well_formed : forallb well_formed es = true.
Hypothesis one_more : len es < header_param_count header.

Ltac run_Ok a p := rewrite (bind_Ok _ _ _ _ a p); cbv beta iota.

(** Fewer than 4 bytes are left where a length field is expected. *)
Lemma short_length_io (tail : bytes) :
  let file := header ++ table_bytes es ++ tail in
  (length tail < 4)%nat ->
  read_user_params_io (after_header header file) file 0 =
    Raise TruncatedNameLength.
Proof.
  intros file Ht.
  destruct (next_entry header es header_length entries_well_formed one_more
              tail) as [n Hn].
  fold file in Hn. rewrite Hn. cbn [read_user_params_loop].
  run_Ok tail (len (header ++ table_bytes es) + len tail).
  2:{ replace file with ((header ++ table_bytes es) ++ tail)
        by (unfold file; rewrite <- app_assoc; reflexivity).
      apply f_read_short; [unfold len; lia | reflexivity]. }
  destruct (Z.ltb_spec (len tail) 4); [reflexivity | unfold len in *; lia].
Qed.

(** The length and the name are there, fewer than 4 bytes are left for
    the value. *)
Lemma short_value_io (length_bytes name_bytes tail : bytes) :
  let file :=
    header ++ table_bytes es ++ length_bytes ++ name_bytes ++ tail in
  length length_bytes = 4%nat ->
  signed_from_bytes_big length_bytes = len name_bytes ->
  is_utf_8 name_bytes = true ->
  (length tail < 4)%nat ->
  read_user_params_io (after_header header file) file 0 =
    Raise TruncatedValue.
Proof.
  intros file H4 Hn Hutf Ht.
  destruct (next_entry header es header_length entries_well_formed one_more
              (length_bytes ++ name_bytes ++ tail)) as [n Hnext].
  fold file in Hnext. rewrite Hnext. cbn [read_user_params_loop].
  assert (file = (header ++ table_bytes es)
                   ++ length_bytes ++ (name_bytes ++ tail))
    as Hf by (unfold file; rewrite <- !app_assoc; reflexivity).
  assert (len length_bytes = 4) as H4' by (unfold len; lia).
  run_Ok length_bytes (len (header ++ table_bytes es) + 4).
  2:{ apply (f_read_eq file (header ++ table_bytes es) length_bytes
               (name_bytes ++ tail)); auto. }
  rewrite H4'. change (4 <? 4) with false. cbv iota.
  run_Ok [signed_from_bytes_big length_bytes]
    (len (header ++ table_bytes es) + 4).
  2:{ unfold lift. rewrite struct_unpack_i by exact H4. reflexivity. }
  change (item [signed_from_bytes_big length_bytes] 0)
    with (signed_from_bytes_big length_bytes).
  rewrite Hn.
  run_Ok name_bytes (len (header ++ table_bytes es) + 4 + len name_bytes).
  2:{ apply (f_read_eq file ((header ++ table_bytes es) ++ length_bytes)
               name_bytes tail).
      - rewrite Hf, <- !app_assoc. reflexivity.
      - reflexivity.
      - rewrite (len_app _ length_bytes). lia. }
  rewrite Z.ltb_irrefl.
  unfold is_utf_8 in Hutf.
  destruct (utf_8_decode name_bytes) as [name|] eqn:Hd; [|discriminate].
  run_Ok name (len (header ++ table_bytes es) + 4 + len name_bytes).
  2:{ unfold lift, decode_utf_8. rewrite Hd. reflexivity. }
  run_Ok tail (len (header ++ table_bytes es) + 4 + len name_bytes + len tail).
  2:{ replace file
        with (((header ++ table_bytes es) ++ length_bytes ++ name_bytes)
                ++ tail)
        by (rewrite Hf, <- !app_assoc; reflexivity).
      apply f_read_short; [unfold len; lia|].
      rewrite !len_app. lia. }
  destruct (Z.ltb_spec (len tail) 4); [reflexivity | unfold len in *; lia].
Qed.

End TruncatedEntries.

Section MoreParameters.

(** X7. A header whose parameter count is zero or negative loads with an
    empty mapping, whatever follows the header: [range] of a negative
    count is empty, so a negative count is taken as zero and not
    reported. *)
Theorem nonpositive_param_count (header rest : bytes) :
  length header = 32%nat ->
  header_param_count header <= 0 ->
  exists self,
    __init__ (header ++ rest) = Ok self /\
    user_params self = [] /\
    user_param_count self = header_param_count header.
Proof.
  intros Hl Hc. exists (after_header header (header ++ rest)).
  split; [|split; reflexivity].
  unfold __init__. rewrite read_header_blank by exact Hl.
  unfold _read_user_params, with_open, read_user_params_io.
  rewrite (bind_Ok _ _ _ _ tt 32) by reflexivity. cbv beta.
  cbn [user_param_count user_params after_header].
  fold (header_param_count header).
  replace (Z.to_nat (header_param_count header)) with 0%nat by lia.
  reflexivity.
Qed.

Lemma nonpositive_param_count_witness :
  exists self,
    __init__ (negative_count_header ++ [x00; x01; x02]) = Ok self /\
    user_params self = [] /\
    user_param_count self = header_param_count negative_count_header.
Proof.
  apply (nonpositive_param_count negative_count_header [x00; x01; x02]).
  - reflexivity.
  - vm_compute. discriminate.
Defined.

(** X8. When the header promises more entries than the well-formed ones
    present and fewer than 4 bytes follow them, the load fails with the
    error of the name-length read. *)
Theorem truncated_length_field (header : bytes) (es : list entry)
  (tail : bytes) :
  length header = 32%nat ->
  forallb well_formed es = true ->
  len es < header_param_count header ->
  (length tail < 4)%nat ->
  __init__ (header ++ table_bytes es ++ tail) = Raise TruncatedNameLength.
Proof.
  intros Hl Hwf Hc Ht.
  apply (init_raises header Hl _ (table_bytes es ++ tail));
    [reflexivity|].
  apply (short_length_io header es Hl Hwf Hc tail Ht).
Qed.

Lemma truncated_length_field_witness :
  __init__ (two_param_header ++ table_bytes [scenario_entry] ++ [x00; x00]) =
    Raise TruncatedNameLength.
Proof.
  apply (truncated_length_field two_param_header [scenario_entry] [x00; x00]).
  - reflexivity.
  - reflexivity.
  - vm_compute. reflexivity.
  - cbn. lia.
Defined.

(** X9. When an entry has its length field and its UTF-8 name and fewer
    than 4 bytes are left for the value, the load fails with the error of
    the value read. *)
Theorem truncated_value_field (header : bytes) (es : list entry)
  (length_bytes name_bytes tail : bytes) :
  length header = 32%nat ->
  forallb well_formed es = true ->
  len es < header_param_count header ->
  length length_bytes = 4%nat ->
  signed_from_bytes_big length_bytes = len name_bytes ->
  is_utf_8 name_bytes = true ->
  (length tail < 4)%nat ->
  __init__ (header ++ table_bytes es ++ length_bytes ++ name_bytes ++ tail) =
    Raise TruncatedValue.
Proof.
  intros Hl Hwf Hc H4 Hn Hutf Ht.
  apply (init_raises header Hl _
           (table_bytes es ++ length_bytes ++ name_bytes ++ tail));
    [reflexivity|].
  apply (short_value_io header es Hl Hwf Hc length_bytes name_bytes tail
           H4 Hn Hutf Ht).
Qed.

Lemma truncated_value_field_witness :
  __init__ (scenario_header ++ table_bytes []
              ++ [x00; x00; x00; x01] ++ [x78] ++ [x00; x00; x00]) =
    Raise TruncatedValue.
Proof.
  apply (truncated_value_field scenario_header []
           [x00; x00; x00; x01] [x78] [x00; x00; x00]);
    try reflexivity.
  cbn. lia.
Defined.

(** X10. A fully present entry whose name is not UTF-8 aborts the load
    with [UnicodeDecodeError], wherever it stands in the table: neither
    [_read_user_params] nor [__init__] returns an object. *)
Theorem invalid_name_aborts_load (header : bytes) (es : list entry)
  (e : entry) (rest : bytes) :
  length header = 32%nat ->
  forallb well_formed es = true ->
  len es < header_param_count header ->
  length (e_length e) = 4%nat ->
  signed_from_bytes_big (e_length e) = len (e_name e) ->
  is_utf_8 (e_name e) = false ->
  let file := header ++ table_bytes es ++ entry_bytes e ++ rest in
  _read_user_params (after_header header file) = Raise UnicodeDecodeError /\
  __init__ file = Raise UnicodeDecodeError.
Proof.
  intros Hl Hwf Hc H4 Hn Hbad file.
  apply (init_raises header Hl file
           (table_bytes es ++ entry_bytes e ++ rest)); [reflexivity|].
  apply (invalid_name_io header es Hl Hwf Hc e rest H4 Hn).
  unfold is_utf_8 in Hbad.
  destruct (utf_8_decode (e_name e)); [discriminate | reflexivity].
Qed.

Lemma invalid_name_aborts_load_witness :
  let file := two_param_header ++ table_bytes [scenario_entry]
                ++ entry_bytes bad_name_entry ++ [] in
  _read_user_params (after_header two_param_header file) =
    Raise UnicodeDecodeError /\
  __init__ file = Raise UnicodeDecodeError.
Proof.
  apply (invalid_name_aborts_load two_param_header [scenario_entry]
           bad_name_entry []); reflexivity.
Defined.

(** X23. A negative name length never gives the truncated-name error.
    Below -1 it is [f.read] that raises [ValueError]; at -1 the rest of
    the file is taken as the name, and the load fails with
    [UnicodeDecodeError] when that rest is not UTF-8 and with the error of
    the value read when it is. *)
Theorem negative_name_length_outcome (header : bytes) (es : list entry)
  (length_bytes remaining : bytes) :
  length header = 32%nat ->
  forallb well_formed es = true ->
  len es < header_param_count header ->
  length length_bytes = 4%nat ->
  signed_from_bytes_big length_bytes < 0 ->
  let file := header ++ table_bytes es ++ length_bytes ++ remaining in
  __init__ file =
    Raise (if signed_from_bytes_big length_bytes <? -1
           then ValueError "read length must be non-negative or -1"
           else if is_utf_8 remaining then TruncatedValue
           else UnicodeDecodeError) /\
  __init__ file <> Raise TruncatedName.
Proof.
  intros Hl Hwf Hc H4 Hneg file.
  pose proof (negative_name_length header es length_bytes remaining
                Hl Hwf Hc H4 Hneg) as H.
  cbv zeta in H. fold file in H. rewrite H.
  destruct (signed_from_bytes_big length_bytes <? -1);
    [split; [reflexivity | discriminate]|].
  destruct (is_utf_8 remaining); split; try reflexivity; discriminate.
Qed.

Lemma negative_name_length_outcome_witness :
  let file := scenario_header ++ table_bytes []
                ++ [xff; xff; xff; xff] ++ [x78; x79] in
  __init__ file =
    Raise (if signed_from_bytes_big [xff; xff; xff; xff] <? -1
           then ValueError "read length must be non-negative or -1"
           else if is_utf_8 [x78; x79] then TruncatedValue
           else UnicodeDecodeError) /\
  __init__ file <> Raise TruncatedName.
Proof.
  apply (negative_name_length_outcome scenario_header []
           [xff; xff; xff; xff] [x78; x79]); reflexivity.
Defined.

End MoreParameters.

(** ** The keys of the mapping *)

Section Keys.

Lemma existsb_str_eqb (k : str) (ks : list str) :
  existsb (str_eqb k) ks = true <-> In k ks.
Proof.
  rewrite existsb_exists. split.
  - intros (x & Hin & Hx). apply str_eqb_eq in Hx. subst. exact Hin.
  - intros Hin. exists k. split; [exact Hin | apply str_eqb_refl].
Qed.

Lemma in_keys_setitem (k k' : str) (v : Z) (d : dict) :
  In k' (dict_keys (dict_setitem k v d)) <-> k' = k \/ In k' (dict_keys d).
Proof.
  rewrite dict_keys_setitem.
  destruct (existsb (str_eqb k) (dict_keys d)) eqn:E.
  - apply existsb_str_eqb in E. split; [tauto|].
    intros [-> | H]; assumption.
  - rewrite in_app_iff. cbn. split; intros H; intuition congruence.
Qed.

Lemma NoDup_keys_setitem (k : str) (v : Z) (d : dict) :
  NoDup (dict_keys d) -> NoDup (dict_keys (dict_setitem k v d)).
Proof.
  intros H. rewrite dict_keys_setitem.
  destruct (existsb (str_eqb k) (dict_keys d)) eqn:E; [exact H|].
  apply NoDup_app; [exact H | constructor; [intros [] | constructor] |].
  intros a Ha [<- | []].
  apply existsb_str_eqb in Ha. congruence.
Qed.

Lemma length_setitem (k : str) (v : Z) (d : dict) :
  (length d <= length (dict_setitem k v d) <= S (length d))%nat.
Proof.
  induction d as [|[k0 v0] d IH]; cbn.
  - lia.
  - destruct (str_eqb k k0); cbn; lia.
Qed.

Lemma keys_insert_all (es : list entry) :
  forall d : dict,
    NoDup (dict_keys d) ->
    NoDup (dict_keys (insert_all es d)) /\
    (forall k, In k (dict_keys (insert_all es d)) <->
               In k (dict_keys d) \/ In k (map entry_name es)) /\
    (length (insert_all es d) <= length d + length es)%nat.
Proof.
  induction es as [|e es IH]; intros d Hd.
  - cbn. repeat split; auto; try tauto. lia.
  - cbn [insert_all fold_left]. fold (insert_all es).
    destruct (IH (dict_setitem (entry_name e) (entry_value e) d))
      as (H1 & H2 & H3); [apply NoDup_keys_setitem; exact Hd|].
    split; [exact H1|]. split.
    + intros k. rewrite H2, in_keys_setitem. cbn [map In].
      intuition congruence.
    + pose proof (length_setitem (entry_name e) (entry_value e) d).
      cbn [length]. unfold insert_all in H3. lia.
Qed.

(** Loading a file whose header is followed by the entries it counts. *)
Lemma init_well_formed (header rest : bytes) (es : list entry) :
  length header = 32%nat ->
  header_param_count header = len es ->
  forallb well_formed es = true ->
  __init__ (header ++ table_bytes es ++ rest) =
    Ok (set_user_params
          (after_header header (header ++ table_bytes es ++ rest))
          (insert_all es [])).
Proof.
  intros Hl Hc Hwf. unfold __init__.
  rewrite read_header_blank by exact Hl.
  unfold _read_user_params, with_open.
  change (db_file (after_header header (header ++ table_bytes es ++ rest)))
    with (header ++ table_bytes es ++ rest).
  rewrite (read_user_params_io_prefix header es Hl Hwf rest 0)
    by (rewrite Hc; lia).
  reflexivity.
Qed.

(** What [_read_header] leaves as it was. *)
Lemma read_header_keeps (s s' : LocalBufferFile) :
  _read_header s = Ok s' ->
  db_file s' = db_file s /\ user_params s' = user_params s.
Proof.
  unfold _read_header, with_open, bind, raise, lift, ret. intros H.
  destruct (f_read 32 (db_file s) 0) as [[header p]|e]; [|discriminate H].
  cbv beta iota in H.
  destruct (len header <? 32); [discriminate H|].
  cbv beta iota in H.
  destruct (struct_unpack header_fmt (firstn 32 header)) as [t|e];
    [|discriminate H].
  injection H as <-. split; reflexivity.
Qed.

(** Whatever the file holds, a run of the loop that ends without an
    exception keeps the keys distinct and adds at most one item a turn. *)
Lemma read_user_params_loop_keys (n : nat) :
  forall (d : dict) (file : bytes) (pos : Z) (d' : dict) (pos' : Z),
    read_user_params_loop n d file pos = Ok (d', pos') ->
    NoDup (dict_keys d) ->
    NoDup (dict_keys d') /\ (length d' <= length d + n)%nat.
Proof.
  induction n as [|n IH]; intros d file pos d' pos' H Hd.
  - cbn in H. unfold ret in H. injection H as <- _. split; [exact Hd | lia].
  - cbn [read_user_params_loop] in H. unfold bind, raise, lift in H.
    destruct (f_read 4 file pos) as [[nld p1]|e]; [|discriminate H].
    cbv beta iota in H.
    destruct (len nld <? 4); [discriminate H|].
    cbv beta iota in H.
    destruct (struct_unpack [fmt_i] nld) as [t|e]; [|discriminate H].
    cbv beta iota in H.
    destruct (f_read (item t 0) file p1) as [[nd p2]|e]; [|discriminate H].
    cbv beta iota in H.
    destruct (len nd <? item t 0); [discriminate H|].
    cbv beta iota in H.
    destruct (decode_utf_8 nd) as [name|e]; [|discriminate H].
    cbv beta iota in H.
    destruct (f_read 4 file p2) as [[vd p3]|e]; [|discriminate H].
    cbv beta iota in H.
    destruct (len vd <? 4); [discriminate H|].
    cbv beta iota in H.
    destruct (struct_unpack [fmt_i] vd) as [t'|e]; [|discriminate H].
    cbv beta iota in H.
    apply IH in H; [|apply NoDup_keys_setitem; exact Hd].
    destruct H as [H1 H2]. split; [exact H1|].
    pose proof (length_setitem name (item t' 0) d). lia.
Qed.

(** X11. Whatever the file holds, when the load succeeds the keys of the
    mapping are pairwise different and the mapping holds at most as many
    items as the header counts, none when the count is zero or
    negative. *)
Theorem loaded_mapping_keys (file : bytes) (self : LocalBufferFile) :
  __init__ file = Ok self ->
  NoDup (dict_keys (user_params self)) /\
  len (user_params self) <= Z.max 0 (user_param_count self).
Proof.
  unfold __init__. intros H.
  destruct (_read_header (blank file)) as [self0|e] eqn:Hh;
    [|discriminate H].
  destruct (read_header_keeps _ _ Hh) as [_ Hp].
  change (user_params (blank file)) with (@nil (str * Z)) in Hp.
  unfold _read_user_params, with_open in H.
  destruct (read_user_params_io self0 (db_file self0) 0)
    as [[params p]|e] eqn:Hio; [|discriminate H].
  injection H as <-.
  cbn [user_params set_user_params user_param_count].
  unfold read_user_params_io, bind in Hio.
  change (f_seek 32 (db_file self0) 0) with (@Ok (unit * Z) (tt, 32)) in Hio.
  cbv beta iota in Hio. rewrite Hp in Hio.
  destruct (read_user_params_loop_keys _ _ _ _ _ _ Hio) as [H1 H2];
    [constructor|].
  split; [exact H1|]. unfold len. cbn [length] in H2. lia.
Qed.

Lemma loaded_mapping_keys_witness :
  let file := two_param_header
                ++ table_bytes [scenario_entry; second_entry] ++ [] in
  let self := set_user_params (after_header two_param_header file)
                [([120], 9)] in
  NoDup (dict_keys (user_params self)) /\
  len (user_params self) <= Z.max 0 (user_param_count self).
Proof.
  apply (loaded_mapping_keys
           (two_param_header
              ++ table_bytes [scenario_entry; second_entry] ++ [])).
  vm_compute. reflexivity.
Defined.

End Keys.

(** ** More on the block count of [info] *)

Section Counting.

Variable self : LocalBufferFile.

Hypothesis size_ge_5 : 5 <= block_size self.

(** A block that lies in the file whole is read. *)
Lemma block_full (i : Z) :
  0 <= i ->
  (i + 2) * block_size self <= len (db_file self) ->
  get_buffer_block self i =
    Ok (firstn 1 (block_bytes self i), skipn 5 (block_bytes self i),
        stored_id self i).
Proof.
  intros Hi Hlen. rewrite block_outcome_correct by exact size_ge_5.
  unfold block_outcome.
  destruct (Z.ltb_spec ((i + 1) * block_size self) 0); [nia|].
  destruct (Z.leb_spec (len (db_file self)) ((i + 1) * block_size self));
    [nia|].
  destruct (Z.ltb_spec (len (db_file self)) ((i + 1) * block_size self + 5));
    [nia|].
  destruct (Z.ltb_spec (len (db_file self))
              ((i + 1) * block_size self + block_size self)); [nia|].
  reflexivity.
Qed.

(** A read that raises a [ValueError] is at an index whose block does not
    lie in the file whole. *)
Lemma block_ValueError (i : Z) (e : exn) :
  get_buffer_block self i = Raise e ->
  isinstance_ValueError e = true ->
  -1 <= i /\ len (db_file self) < (i + 2) * block_size self.
Proof.
  rewrite block_outcome_correct by exact size_ge_5. unfold block_outcome.
  destruct (Z.ltb_spec ((i + 1) * block_size self) 0).
  { intros [= <-]. discriminate. }
  destruct (Z.leb_spec (len (db_file self)) ((i + 1) * block_size self)).
  { intros _ _. nia. }
  destruct (Z.ltb_spec (len (db_file self)) ((i + 1) * block_size self + 5)).
  { intros [= <-]. discriminate. }
  destruct (Z.ltb_spec (len (db_file self))
              ((i + 1) * block_size self + block_size self)).
  { intros _ _. nia. }
  discriminate.
Qed.

(** A read that succeeds is at an index whose block lies in the file
    whole. *)
Lemma block_Ok (i : Z) (r : bytes * bytes * Z) :
  get_buffer_block self i = Ok r ->
  -1 <= i /\ (i + 2) * block_size self <= len (db_file self).
Proof.
  rewrite block_outcome_correct by exact size_ge_5. unfold block_outcome.
  destruct (Z.ltb_spec ((i + 1) * block_size self) 0); [discriminate|].
  destruct (Z.leb_spec (len (db_file self)) ((i + 1) * block_size self));
    [discriminate|].
  destruct (Z.ltb_spec (len (db_file self)) ((i + 1) * block_size self + 5));
    [discriminate|].
  destruct (Z.ltb_spec (len (db_file self))
              ((i + 1) * block_size self + block_size self));
    [discriminate|].
  intros _. nia.
Qed.

Variable N : Z.

Hypothesis at_least_one : 1 <= N.
Hypothesis N_blocks : len (db_file self) = (N + 1) * block_size self.

Lemma block_past_end (i : Z) :
  N <= i -> get_buffer_block self i = Raise BlockOutOfRangeError.
Proof.
  intros Hi. apply get_buffer_block_eof; nia.
Qed.


(** The loop from any index on, when every block stores an id between
    its own index and the index of the last block: the index grows at
    every turn and never passes [N]. *)
Lemma info_loop_in_range
  (in_range_ids : forall i, 0 <= i < N -> i <= stored_id self i < N)
  (m : nat) :
  forall (b : Z) (calls : list Z) (fuel : nat),
    -1 <= b < N -> N - 1 - b <= Z.of_nat m -> (m < fuel)%nat ->
    exists calls', info_loop fuel self b calls = Returns N calls'.
Proof.
  induction m as [|m IH]; intros b calls fuel Hb Hm Hfuel;
    (destruct fuel as [|fuel]; [lia|]).
  - assert (b + 1 = N) as Hn by lia.
    exists (calls ++ [N]). rewrite <- Hn.
    apply (info_loop_stop fuel self b calls BlockOutOfRangeError);
      [apply block_past_end; lia | reflexivity].
  - destruct (Z_lt_le_dec (b + 1) N) as [Hin|Hout].
    + rewrite (info_loop_next fuel self b calls
                 (firstn 1 (block_bytes self (b + 1)))
                 (skipn 5 (block_bytes self (b + 1)))
                 (stored_id self (b + 1)))
        by (apply block_full; nia).
      pose proof (in_range_ids (b + 1)) as Hs.
      apply IH; lia.
    + assert (b + 1 = N) as Hn by lia.
      exists (calls ++ [N]). rewrite <- Hn.
      apply (info_loop_stop fuel self b calls BlockOutOfRangeError);
        [apply block_past_end; lia | reflexivity].
Qed.

End Counting.

Section Counts.

(** X12. On a file with no block after the header block -- a file not
    longer than the block size -- [info] does not report a count of 0:
    its first read, which is outside the [try], raises the out-of-range
    error, and [info] ends with that exception. *)
Theorem info_no_blocks_raises (self : LocalBufferFile) (fuel : nat) :
  0 <= block_size self ->
  len (db_file self) <= block_size self ->
  info fuel self = Raises BlockOutOfRangeError [0].
Proof.
  intros Hsize Hlen. unfold info.
  rewrite (get_buffer_block_eof self 0) by lia. reflexivity.
Qed.

Lemma info_no_blocks_raises_witness :
  info 5 header_only = Raises BlockOutOfRangeError [0].
Proof.
  apply (info_no_blocks_raises header_only 5).
  - cbn. lia.
  - vm_compute. discriminate.
Defined.



(** X14. When the file holds [N >= 1] full blocks after the header block
    and nothing more, and every block stores an id that is at least its
    own index and at most the index of the last block, [info] leaves its
    loop within [N] turns and prints [N], the number of blocks, even
    though it may skip blocks on its way. *)
Theorem info_counts_blocks_when_ids_in_range (self : LocalBufferFile)
  (N : Z) (fuel : nat) :
  5 <= block_size self ->
  1 <= N ->
  len (db_file self) = (N + 1) * block_size self ->
  (forall i, 0 <= i < N -> i <= stored_id self i < N) ->
  (Z.to_nat N <= fuel)%nat ->
  exists calls, info fuel self = Returns N calls.
Proof.
  intros Hsize HN Hlen Hin Hfuel. unfold info.
  rewrite (block_full self Hsize 0) by nia.
  pose proof (Hin 0) as H0.
  apply (info_loop_in_range self Hsize N HN Hlen Hin (Z.to_nat (N - 1)));
    lia.
Qed.

Lemma info_counts_blocks_when_ids_in_range_witness :
  exists calls, info 2 growing_ids = Returns 2 calls.
Proof.
  apply (info_counts_blocks_when_ids_in_range growing_ids 2 2).
  - cbn. lia.
  - lia.
  - reflexivity.
  - intros i Hi.
    assert (i = 0 \/ i = 1) as [-> | ->] by lia;
      (vm_compute; split; [discriminate | reflexivity]).
  - cbn. lia.
Defined.

End Counts.

Section CountBound.

Variable self : LocalBufferFile.

Hypothesis size_ge_5 : 5 <= block_size self.
Hypothesis first_block : 2 * block_size self <= len (db_file self).

(** When the loop is left through [break], the number printed is the
    last index read, and the block of that index is not whole in the
    file. *)
Lemma info_loop_bound (fuel : nat) :
  forall (b : Z) (calls : list Z) (n : Z) (calls' : list Z),
    info_loop fuel self b calls = Returns n calls' ->
    1 <= n /\ len (db_file self) < (n + 2) * block_size self /\
    exists mid, calls' = calls ++ mid ++ [n].
Proof.
  induction fuel as [|fuel IH]; intros b calls n calls' H.
  - discriminate H.
  - cbn [info_loop] in H.
    destruct (get_buffer_block self (b + 1)) as [[[flags data] s]|e] eqn:E.
    + apply IH in H. destruct H as (H1 & H2 & mid & ->).
      split; [exact H1|]. split; [exact H2|].
      exists ((b + 1) :: mid). rewrite <- !app_assoc. reflexivity.
    + destruct (isinstance_ValueError e) eqn:Ee; [|discriminate H].
      injection H as <- <-.
      destruct (block_ValueError self size_ge_5 (b + 1) e E Ee) as [H1 H2].
      split; [nia|]. split; [exact H2|].
      exists []. reflexivity.
Qed.

End CountBound.

Section Script.

(** X15. With a block size of at least 5, whenever [info] prints a
    count, the count is at least 1, it is the last index passed to
    [get_buffer_block] (the first one being 0), and the block of that
    index does not lie whole in the file: the count is never below the
    number of full blocks after the header block. *)
Theorem info_count_lower_bound (self : LocalBufferFile) (fuel : nat)
  (n : Z) (calls : list Z) :
  5 <= block_size self ->
  info fuel self = Returns n calls ->
  1 <= n /\
  len (db_file self) < (n + 2) * block_size self /\
  exists mid, calls = 0 :: mid ++ [n].
Proof.
  intros Hsize H. unfold info in H.
  destruct (get_buffer_block self 0) as [[[flags data] s]|e] eqn:E;
    [|discriminate H].
  destruct (block_Ok self Hsize 0 _ E) as [_ Hlen].
  apply (info_loop_bound self Hsize) in H; [|lia].
  destruct H as (H1 & H2 & mid & ->).
  split; [exact H1|]. split; [exact H2|]. exists mid. reflexivity.
Qed.

Lemma info_count_lower_bound_witness :
  1 <= 6 /\
  len (db_file scenario) < (6 + 2) * block_size scenario /\
  exists mid, [0; 6] = 0 :: mid ++ [6].
Proof.
  apply (info_count_lower_bound scenario 1 6 [0; 6]).
  - cbn. lia.
  - vm_compute. reflexivity.
Defined.

Lemma short_file_init (content : bytes) :
  (length content < 32)%nat -> __init__ content = Raise TruncatedHeaderError.
Proof.
  intros Hl. unfold __init__, _read_header, with_open.
  change (db_file (blank content)) with content.
  rewrite (bind_Ok _ _ _ _ content (len content)).
  2:{ apply (f_read_short [] content 32 0);
        [unfold len; lia | reflexivity]. }
  destruct (Z.ltb_spec (len content) 32);
    [reflexivity | unfold len in *; lia].
Qed.

(** X16. The script ends through [sys.exit] exactly when it gets no
    argument or an empty one; the status is then 1 and the usage line is
    all it prints, without any file being opened. *)
Theorem main_usage (fs : string -> option bytes) (fuel : nat)
  (argv : list string) (status : Z) :
  snd (main fs fuel argv) = Exit status <->
  (nth_error argv 1 = None \/ nth_error argv 1 = Some "") /\
  main fs fuel argv = ([usage], Exit 1) /\ status = 1.
Proof.
  unfold main. destruct argv as [|prog [|arg rest]]; cbn [nth_error].
  - split.
    + intros [= <-]. auto.
    + intros (_ & _ & ->). reflexivity.
  - split.
    + intros [= <-]. auto.
    + intros (_ & _ & ->). reflexivity.
  - destruct (String.eqb_spec arg "") as [-> | Hne].
    + split.
      * intros [= <-]. auto.
      * intros (_ & _ & ->). reflexivity.
    + split.
      * intros H. exfalso.
        destruct (fs arg) as [content|]; [|discriminate H].
        destruct (__init__ content) as [lbf|e]; [|discriminate H].
        cbn [snd] in H. destruct (info fuel lbf); discriminate H.
      * intros ([H | H] & _); [discriminate H | congruence].
Qed.

(** X17. On a file of fewer than 32 bytes the script prints nothing and
    ends with the too-short-header [ValueError], which nothing catches. *)
Theorem main_short_file (fs : string -> option bytes) (fuel : nat)
  (prog path : string) (rest : list string) (content : bytes) :
  path <> "" ->
  fs path = Some content ->
  (length content < 32)%nat ->
  main fs fuel (prog :: path :: rest) = ([], Uncaught TruncatedHeaderError).
Proof.
  intros Hne Hfs Hl. unfold main.
  destruct (String.eqb_spec path "") as [-> | _]; [congruence|].
  rewrite Hfs, (short_file_init content Hl). reflexivity.
Qed.

Lemma main_short_file_witness :
  main (fun _ => Some [x11; x22; x33]) 5 ["jiddra.py"; "db"] =
    ([], Uncaught TruncatedHeaderError).
Proof.
  apply (main_short_file (fun _ => Some [x11; x22; x33]) 5
           "jiddra.py" "db" [] [x11; x22; x33]).
  - discriminate.
  - reflexivity.
  - cbn. lia.
Defined.

(** X18. On a file that holds a header without parameters and no block
    after the header block, the script prints the six header lines and
    then ends with the out-of-range [ValueError] of the first block read:
    no block count is printed. *)
Theorem main_header_only (fs : string -> option bytes) (fuel : nat)
  (prog path : string) (rest : list string) (header tail : bytes) :
  path <> "" ->
  fs path = Some (header ++ tail) ->
  length header = 32%nat ->
  header_param_count header <= 0 ->
  let lbf := after_header header (header ++ tail) in
  0 <= block_size lbf ->
  len (header ++ tail) <= block_size lbf ->
  main fs fuel (prog :: path :: rest) =
    (info_report lbf, Uncaught BlockOutOfRangeError) /\
  length (info_report lbf) = 6%nat.
Proof.
  intros Hne Hfs Hl Hc lbf Hsize Hlen.
  assert (__init__ (header ++ tail) = Ok lbf) as Hinit.
  { unfold __init__. rewrite read_header_blank by exact Hl.
    unfold _read_user_params, with_open, read_user_params_io.
    rewrite (bind_Ok _ _ _ _ tt 32) by reflexivity. cbv beta.
    cbn [user_param_count user_params after_header].
    fold (header_param_count header).
    replace (Z.to_nat (header_param_count header)) with 0%nat by lia.
    reflexivity. }
  assert (info fuel lbf = Raises BlockOutOfRangeError [0]) as Hinfo.
  { unfold info. rewrite (get_buffer_block_eof lbf 0); [reflexivity | lia|].
    change (db_file lbf) with (header ++ tail). lia. }
  assert ((user_param_count lbf >? 0) = false) as Hcount.
  { change (user_param_count lbf) with (header_param_count header).
    destruct (Z.gtb_spec (header_param_count header) 0); [lia | reflexivity]. }
  split.
  - unfold main.
    destruct (String.eqb_spec path "") as [-> | _]; [congruence|].
    rewrite Hfs, Hinit. unfold info_stdout. rewrite Hinfo.
    rewrite app_nil_r. reflexivity.
  - unfold info_report. rewrite Hcount. reflexivity.
Qed.

Lemma main_header_only_witness :
  let lbf := after_header (firstn 32 plain_header_block)
               (firstn 32 plain_header_block ++ zeros 32) in
  main (fun _ => Some (firstn 32 plain_header_block ++ zeros 32)) 5
       ["jiddra.py"; "db"] =
    (info_report lbf, Uncaught BlockOutOfRangeError) /\
  length (info_report lbf) = 6%nat.
Proof.
  apply (main_header_only
           (fun _ => Some (firstn 32 plain_header_block ++ zeros 32)) 5
           "jiddra.py" "db" [] (firstn 32 plain_header_block) (zeros 32)).
  - discriminate.
  - reflexivity.
  - reflexivity.
  - vm_compute. discriminate.
  - vm_compute. discriminate.
  - vm_compute. discriminate.
Defined.

End Script.

Section EndToEnd.



End EndToEnd.

(** ** Names *)

Section Names.

Lemma in_range_spec (lo hi : Z) (b : byte) :
  in_range lo hi b = true -> lo <= byte_to_Z b <= hi.
Proof.
  unfold in_range. intros H. apply andb_prop in H as [H1 H2].
  apply Z.leb_le in H1, H2. lia.
Qed.

Lemma byte_of_Z_eq (z : Z) (b : byte) : z = byte_to_Z b -> byte_of_Z z = b.
Proof. intros ->. apply byte_of_to_Z. Qed.

Ltac bounds :=
  repeat match goal with
  | H : (_ && _) = true |- _ => apply andb_prop in H; destruct H
  | H : in_range _ _ _ = true |- _ => apply in_range_spec in H
  | H : (_ <? _) = false |- _ => apply Z.ltb_ge in H
  | H : (_ <? _) = true |- _ => apply Z.ltb_lt in H
  | H : context [if ?x =? ?y then _ else _] |- _ =>
      destruct (Z.eqb_spec x y)
  end.

Ltac pick_branch :=
  repeat match goal with
  | |- context [if ?x <? ?y then _ else _] =>
      destruct (Z.ltb_spec x y); try lia
  end.

(** Decoding loses nothing and yields scalar values. *)
Lemma utf_8_decode_encode (n : nat) :
  forall (bs : bytes) (s : str),
    (length bs <= n)%nat ->
    utf_8_decode bs = Some s ->
    utf_8_encode s = bs /\ Forall scalar_value s.
Proof.
  induction n as [|n IH]; intros bs s Hn Hd.
  - destruct bs; [|cbn in Hn; lia]. injection Hd as <-. split; constructor.
  - destruct bs as [|b0 r0]; [injection Hd as <-; split; constructor|].
    cbn [utf_8_decode] in Hd. cbn [length] in Hn.
    pose proof (byte_to_Z_range b0) as R0.
    destruct (byte_to_Z b0 <? 128) eqn:E1.
    { destruct (utf_8_decode r0) as [s'|] eqn:Hr; [|discriminate Hd].
      injection Hd as <-. destruct (IH r0 s' ltac:(lia) Hr) as [He Hs].
      bounds. split.
      - cbn [utf_8_encode flat_map]. fold (utf_8_encode s'). rewrite He.
        unfold utf_8_encode_char. pick_branch.
        cbn [app]. f_equal. apply byte_of_to_Z.
      - constructor; [unfold scalar_value; lia | exact Hs]. }
    destruct (in_range 194 223 b0) eqn:E2.
    { destruct r0 as [|b1 r1]; [discriminate Hd|].
      destruct (in_range 128 191 b1) eqn:E3; [|discriminate Hd].
      destruct (utf_8_decode r1) as [s'|] eqn:Hr; [|discriminate Hd].
      injection Hd as <-. cbn [length] in Hn.
      destruct (IH r1 s' ltac:(lia) Hr) as [He Hs].
      unfold cont. bounds. split.
      - cbn [utf_8_encode flat_map]. fold (utf_8_encode s'). rewrite He.
        unfold utf_8_encode_char. pick_branch.
        cbn [app]. f_equal; [|f_equal]; apply byte_of_Z_eq;
          Z.to_euclidean_division_equations; lia.
      - constructor; [unfold scalar_value; lia | exact Hs]. }
    destruct (in_range 224 239 b0) eqn:E3.
    { destruct r0 as [|b1 [|b2 r2]]; try discriminate Hd.
      match type of Hd with
      | (if ?c then _ else _) = _ => destruct c eqn:E4; [|discriminate Hd]
      end.
      destruct (utf_8_decode r2) as [s'|] eqn:Hr; [|discriminate Hd].
      injection Hd as <-. cbn [length] in Hn.
      destruct (IH r2 s' ltac:(lia) Hr) as [He Hs].
      unfold cont. bounds; (split;
        [ cbn [utf_8_encode flat_map]; fold (utf_8_encode s'); rewrite He;
          unfold utf_8_encode_char; pick_branch;
          cbn [app]; repeat f_equal; apply byte_of_Z_eq;
          Z.to_euclidean_division_equations; lia
        | constructor; [unfold scalar_value; lia | exact Hs] ]). }
    destruct (in_range 240 244 b0) eqn:E4; [|discriminate Hd].
    destruct r0 as [|b1 [|b2 [|b3 r3]]]; try discriminate Hd.
    match type of Hd with
    | (if ?c then _ else _) = _ => destruct c eqn:E5; [|discriminate Hd]
    end.
    destruct (utf_8_decode r3) as [s'|] eqn:Hr; [|discriminate Hd].
    injection Hd as <-. cbn [length] in Hn.
    destruct (IH r3 s' ltac:(lia) Hr) as [He Hs].
    unfold cont. bounds; (split;
      [ cbn [utf_8_encode flat_map]; fold (utf_8_encode s'); rewrite He;
        unfold utf_8_encode_char; pick_branch;
        cbn [app]; repeat f_equal; apply byte_of_Z_eq;
          Z.to_euclidean_division_equations; lia
      | constructor; [unfold scalar_value; lia | exact Hs] ]).
Qed.

End Names.

Section LoadedNames.

Lemma utf_8_decode_injective (bs1 bs2 : bytes) (s : str) :
  utf_8_decode bs1 = Some s -> utf_8_decode bs2 = Some s -> bs1 = bs2.
Proof.
  intros H1 H2.
  destruct (utf_8_decode_encode (length bs1) bs1 s (le_n _) H1) as [E1 _].
  destruct (utf_8_decode_encode (length bs2) bs2 s (le_n _) H2) as [E2 _].
  congruence.
Qed.

Lemma utf_8_decode_ascii (bs : bytes) :
  Forall (fun b => byte_to_Z b < 128) bs ->
  utf_8_decode bs = Some (map byte_to_Z bs).
Proof.
  induction 1 as [|b bs Hb _ IH]; [reflexivity|].
  cbn [utf_8_decode map].
  destruct (Z.ltb_spec (byte_to_Z b) 128); [|lia].
  rewrite IH. reflexivity.
Qed.

Lemma well_formed_all (es : list entry) (e : entry) :
  forallb well_formed es = true -> In e es ->
  utf_8_decode (e_name e) = Some (entry_name e).
Proof.
  intros Hwf Hin. rewrite forallb_forall in Hwf.
  apply (well_formed_inv e (Hwf e Hin)).
Qed.

(** X20. After a load every key of the mapping is a sequence of Unicode
    scalar values (no surrogate, nothing above U+10FFFF) and encodes back
    to the name bytes of an entry of the file: the decoding of names
    loses nothing. *)
Theorem loaded_names_encode_back (header rest : bytes) (es : list entry) :
  length header = 32%nat ->
  header_param_count header = len es ->
  forallb well_formed es = true ->
  exists self,
    __init__ (header ++ table_bytes es ++ rest) = Ok self /\
    forall k, In k (dict_keys (user_params self)) ->
      Forall scalar_value k /\
      exists e, In e es /\ utf_8_encode k = e_name e.
Proof.
  intros Hl Hc Hwf. eexists. split.
  - apply (init_well_formed header rest es Hl Hc Hwf).
  - cbn [user_params set_user_params]. intros k Hk.
    destruct (keys_insert_all es []) as (_ & H2 & _); [constructor|].
    apply H2 in Hk. destruct Hk as [[] | Hk].
    apply in_map_iff in Hk. destruct Hk as (e & <- & Hin).
    pose proof (well_formed_all es e Hwf Hin) as Hd.
    destruct (utf_8_decode_encode _ _ _ (le_n _) Hd) as [He Hs].
    split; [exact Hs|]. exists e. split; [exact Hin | exact He].
Qed.

Lemma loaded_names_encode_back_witness :
  exists self,
    __init__ (two_param_header
                ++ table_bytes [scenario_entry; accent_entry] ++ []) =
      Ok self /\
    forall k, In k (dict_keys (user_params self)) ->
      Forall scalar_value k /\
      exists e, In e [scenario_entry; accent_entry] /\
                utf_8_encode k = e_name e.
Proof.
  apply (loaded_names_encode_back two_param_header []
           [scenario_entry; accent_entry]); reflexivity.
Defined.

(** X21. Of two entries, the second overwrites the first exactly when
    their name bytes are identical: the mapping then holds one item, with
    the name at its place and the value of the second entry; otherwise it
    holds both items in file order. *)
Theorem second_entry_overwrites_iff_same_bytes (header rest : bytes)
  (e1 e2 : entry) :
  length header = 32%nat ->
  header_param_count header = 2 ->
  well_formed e1 = true ->
  well_formed e2 = true ->
  exists self,
    __init__ (header ++ table_bytes [e1; e2] ++ rest) = Ok self /\
    (e_name e1 = e_name e2 ->
     user_params self = [(entry_name e1, entry_value e2)]) /\
    (e_name e1 <> e_name e2 ->
     user_params self =
       [(entry_name e1, entry_value e1); (entry_name e2, entry_value e2)]).
Proof.
  intros Hl Hc H1 H2. eexists. split.
  - apply (init_well_formed header rest [e1; e2] Hl Hc).
    cbn [forallb]. rewrite H1, H2. reflexivity.
  - cbn [user_params set_user_params insert_all fold_left dict_setitem].
    destruct (well_formed_inv e1 H1) as (_ & _ & D1 & _).
    destruct (well_formed_inv e2 H2) as (_ & _ & D2 & _).
    split.
    + intros Heq.
      assert (entry_name e2 = entry_name e1) as Hname
        by (unfold entry_name; rewrite Heq; reflexivity).
      rewrite Hname, str_eqb_refl. reflexivity.
    + intros Hne. destruct (str_eqb (entry_name e2) (entry_name e1)) eqn:E;
        [|reflexivity].
      apply str_eqb_eq in E. exfalso. apply Hne.
      rewrite E in D2. apply (utf_8_decode_injective _ _ _ D1 D2).
Qed.

Lemma second_entry_overwrites_iff_same_bytes_witness :
  exists self,
    __init__ (two_param_header
                ++ table_bytes [scenario_entry; second_entry] ++ []) =
      Ok self /\
    (e_name scenario_entry = e_name second_entry ->
     user_params self = [(entry_name scenario_entry, entry_value second_entry)])
    /\
    (e_name scenario_entry <> e_name second_entry ->
     user_params self =
       [(entry_name scenario_entry, entry_value scenario_entry);
        (entry_name second_entry, entry_value second_entry)]).
Proof.
  apply (second_entry_overwrites_iff_same_bytes two_param_header []
           scenario_entry second_entry); reflexivity.
Defined.

(** X22. A single entry whose name bytes are all below 128 always
    loads: its name cannot fail to decode, and the key is the name bytes
    taken as code points. *)
Theorem ascii_name_is_kept (header rest : bytes)
  (length_bytes name_bytes value_bytes : bytes) :
  length header = 32%nat ->
  header_param_count header = 1 ->
  length length_bytes = 4%nat ->
  signed_from_bytes_big length_bytes = len name_bytes ->
  Forall (fun b => byte_to_Z b < 128) name_bytes ->
  length value_bytes = 4%nat ->
  exists self,
    __init__ (header ++ (length_bytes ++ name_bytes ++ value_bytes) ++ rest) =
      Ok self /\
    user_params self =
      [(map byte_to_Z name_bytes, signed_from_bytes_big value_bytes)].
Proof.
  intros Hl Hc H4 Hn Hascii Hv.
  pose (e := mkEntry length_bytes name_bytes value_bytes).
  pose proof (utf_8_decode_ascii name_bytes Hascii) as Hd.
  assert (well_formed e = true) as Hwf.
  { unfold well_formed, is_utf_8. cbn [e_length e_name e_value e].
    rewrite H4, Hv, Hn, Hd, Z.eqb_refl. reflexivity. }
  eexists. split.
  - replace (length_bytes ++ name_bytes ++ value_bytes)
      with (table_bytes [e])
      by (unfold table_bytes, entry_bytes; cbn; rewrite app_nil_r;
          reflexivity).
    apply (init_well_formed header rest [e] Hl Hc).
    cbn [forallb]. rewrite Hwf. reflexivity.
  - cbn [user_params set_user_params insert_all fold_left dict_setitem].
    unfold entry_name, entry_value. cbn [e_name e_value e].
    rewrite Hd. reflexivity.
Qed.

Lemma ascii_name_is_kept_witness :
  exists self,
    __init__ (scenario_header
                ++ ([x00; x00; x00; x01] ++ [x78] ++ [x00; x00; x00; x07])
                ++ []) = Ok self /\
    user_params self =
      [(map byte_to_Z [x78], signed_from_bytes_big [x00; x00; x00; x07])].
Proof.
  apply (ascii_name_is_kept scenario_header []
           [x00; x00; x00; x01] [x78] [x00; x00; x00; x07]);
    try reflexivity.
  repeat constructor.
Defined.

End LoadedNames.

(** ** Full blocks followed by a cut block *)

Section TrailingBytes.

(** C6. A file that holds the header block, exactly [N] complete blocks
    and [t] further bytes, fewer than a block (block size at least 5):
    every index from 0 to [N - 1] is read and gives the flag byte, the id
    and the payload of its block.  At index [N] the read raises the
    out-of-range error when no byte or at least 5 bytes follow the last
    block, and [struct.error] when 1 to 4 bytes do. *)
Theorem blocks_then_trailing_bytes (self : LocalBufferFile) (N t : Z) :
  5 <= block_size self ->
  0 <= N ->
  0 <= t < block_size self ->
  len (db_file self) = (N + 1) * block_size self + t ->
  (forall i, 0 <= i < N ->
     len (block_bytes self i) = block_size self /\
     get_buffer_block self i =
       Ok (firstn 1 (block_bytes self i), skipn 5 (block_bytes self i),
           stored_id self i)) /\
  get_buffer_block self N =
    if (1 <=? t) && (t <=? 4) then Raise struct_error
    else Raise BlockOutOfRangeError.
Proof.
  intros Hsize HN Ht Hlen. split.
  - intros i Hi. split.
    + unfold block_bytes.
      assert (0 <= (i + 1) * block_size self) as Hoff by nia.
      assert ((i + 1) * block_size self + block_size self
              <= len (db_file self)) as Hend by nia.
      revert Hoff Hend. generalize ((i + 1) * block_size self) as offset.
      intros offset Hoff Hend. unfold len in *.
      rewrite length_firstn, length_skipn. lia.
    + apply (block_full self Hsize i); nia.
  - rewrite (block_outcome_correct self N Hsize). unfold block_outcome.
    rewrite Hlen.
    destruct (Z.ltb_spec ((N + 1) * block_size self) 0); [nia|].
    destruct (Z.leb_spec ((N + 1) * block_size self + t)
                ((N + 1) * block_size self)) as [H0|H0].
    { destruct (Z.leb_spec 1 t); [lia | reflexivity]. }
    destruct (Z.ltb_spec ((N + 1) * block_size self + t)
                ((N + 1) * block_size self + 5)) as [H1|H1].
    { destruct (Z.leb_spec 1 t); [|lia].
      destruct (Z.leb_spec t 4); [reflexivity | lia]. }
    destruct (Z.ltb_spec ((N + 1) * block_size self + t)
                ((N + 1) * block_size self + block_size self)); [|lia].
    destruct (Z.leb_spec 1 t); [|reflexivity].
    destruct (Z.leb_spec t 4); [lia | reflexivity].
Qed.

Lemma blocks_then_trailing_bytes_witness :
  (forall i, 0 <= i < 1 ->
     len (block_bytes cut_prefix i) = block_size cut_prefix /\
     get_buffer_block cut_prefix i =
       Ok (firstn 1 (block_bytes cut_prefix i),
           skipn 5 (block_bytes cut_prefix i), stored_id cut_prefix i)) /\
  get_buffer_block cut_prefix 1 =
    if (1 <=? 3) && (3 <=? 4) then Raise struct_error
    else Raise BlockOutOfRangeError.
Proof.
  apply (blocks_then_trailing_bytes cut_prefix 1 3).
  - cbn. lia.
  - lia.
  - cbn. lia.
  - reflexivity.
Defined.

End TrailingBytes.
